(** * Bootcamp API: the list-query construction of [controllers/bootcamps.js]

    A shallow embedding of the two handlers of [controllers/bootcamps.js]
    that carry logic of their own, [getBootcamps] and [bootcampPhotoUpload],
    together with the JavaScript built-ins they call.

    Conventions of the embedding.
    - A JavaScript string is a [string]; each character stands for one code
      unit, so the strings covered are those whose code units are below 256.
    - A JavaScript number that holds an integer is a [Z], and [NaN] is the
      [None] of an [option Z].  The two agree while magnitudes stay in the
      range where doubles are exact (below 2^53); the statements that
      depend on the arithmetic assume that range ([exactWindow]).
    - An object is the list of its own properties in enumeration order.
      Objects the handler holds in variables live in a store and are reached
      through a location, so that copying and aliasing can be told apart.
    - Collaborators that are not part of the file (the storage model, the
      wrapper [asyncHandler], the process environment) are arguments. *)

From Stdlib Require Import String Ascii ZArith List Bool Lia.
From stdpp Require Import base option list gmap strings.

Local Open Scope Z_scope.

(** ** Strings *)

Module Str.

(** The double quote and the backslash, written by code point. *)
Definition dquote : ascii := "034"%char.
Definition backslash : ascii := "092"%char.

Definition code (c : ascii) : Z := Z.of_N (N_of_ascii c).

Definition between (lo hi c : ascii) : bool :=
  (code lo <=? code c) && (code c <=? code hi).

Definition isDigit (c : ascii) : bool := between "0" "9" c.

(** The class [\w] of a regular expression without flags: [[A-Za-z0-9_]]. *)
Definition isWordChar (c : ascii) : bool :=
  between "a" "z" c || between "A" "Z" c || isDigit c || Ascii.eqb c "_".

Fixpoint take (n : nat) (s : string) : string :=
  match n, s with
  | S n', String c t => String c (take n' t)
  | _, _ => ""
  end.

(** [stripPrefix p s] is what follows [p] in [s] when [s] starts with [p]. *)
Fixpoint stripPrefix (p s : string) : option string :=
  match p, s with
  | "", _ => Some s
  | String a p', String b s' => if Ascii.eqb a b then stripPrefix p' s' else None
  | String _ _, "" => None
  end.

(** [String.prototype.startsWith]. *)
Definition startsWith (s p : string) : bool :=
  match stripPrefix p s with Some _ => true | None => false end.

(** The last code unit of [s], or [prev] when [s] is empty. *)
Fixpoint lastOr (prev : option ascii) (s : string) : option ascii :=
  match s with
  | "" => prev
  | String c t => lastOr (Some c) t
  end.

Fixpoint concat (l : list string) : string :=
  match l with
  | [] => ""
  | s :: r => s +:+ concat r
  end.

(** [Array.prototype.join] on an array of strings. *)
Fixpoint join (sep : string) (l : list string) : string :=
  match l with
  | [] => ""
  | [s] => s
  | s :: r => s +:+ sep +:+ join sep r
  end.

(** [String.prototype.split] with a separator of one code unit: the pieces
    between the separators, in order; the empty string gives one empty
    piece. *)
Fixpoint split (sep : ascii) (s : string) : list string :=
  match s with
  | "" => [""]
  | String c t =>
      if Ascii.eqb c sep then "" :: split sep t
      else match split sep t with
           | piece :: r => String c piece :: r
           | [] => [String c ""]
           end
  end.

Fixpoint contains (c : ascii) (s : string) : bool :=
  match s with
  | "" => false
  | String d t => Ascii.eqb d c || contains c t
  end.

End Str.

(** ** Regular expressions

    The fragment of the regular-expression language that the handler's
    pattern is written in, with the backtracking matcher of the language:
    alternatives are tried from left to right and the first one that lets
    the rest of the pattern match is taken. *)

Module RegExp.

#[warnings="-register-all"]
Inductive regex : Type :=
| Boundary                       (* \b *)
| Lit (s : string)               (* a run of literal characters *)
| Alt (rs : list regex)          (* r1|r2|... *)
| Seq (rs : list regex).         (* r1 r2 ... *)

Definition isWord (c : option ascii) : bool :=
  match c with Some c => Str.isWordChar c | None => false end.

Definition head (s : string) : option ascii :=
  match s with String c _ => Some c | "" => None end.

(** [\b] holds between [prev] and the first character of [s] when exactly
    one of them is a word character; the ends of the text count as
    non-word. *)
Definition atBoundary (prev : option ascii) (s : string) : bool :=
  xorb (isWord prev) (isWord (head s)).

(** [exec r prev s k]: match [r] at the start of [s], the character before
    being [prev], then continue with [k] on what is left.  [k] failing makes
    the matcher backtrack into [r]. *)
Fixpoint exec {A} (r : regex) (prev : option ascii) (s : string)
    (k : option ascii → string → option A) : option A :=
  match r with
  | Boundary => if atBoundary prev s then k prev s else None
  | Lit l =>
      match Str.stripPrefix l s with
      | Some rest => k (Str.lastOr prev l) rest
      | None => None
      end
  | Alt rs =>
      (fix alternatives (rs : list regex) : option A :=
         match rs with
         | [] => None
         | r :: rs' =>
             match exec r prev s k with
             | Some a => Some a
             | None => alternatives rs'
             end
         end) rs
  | Seq rs =>
      (fix sequence (rs : list regex) (prev : option ascii) (s : string) : option A :=
         match rs with
         | [] => k prev s
         | r :: rs' => exec r prev s (λ prev' s', sequence rs' prev' s')
         end) rs prev s
  end.

(** The text left after a match of [r] at the start of [s], if there is one. *)
Definition matchAt (r : regex) (prev : option ascii) (s : string) : option string :=
  exec r prev s (λ _ rest, Some rest).

(** [String.prototype.replace] with a global pattern and a replacer
    function.  The text is scanned from left to right; [skip] counts the
    characters of the last match that are still to be passed over (the
    distance to [lastIndex]).  Where the pattern matches, the replacer's
    result stands for the matched text; an empty match advances by one
    character. *)
Fixpoint replaceFrom (r : regex) (f : string → string)
    (prev : option ascii) (skip : nat) (s : string) : string :=
  match skip with
  | S n =>
      match s with
      | String c t => replaceFrom r f (Some c) n t
      | "" => ""
      end
  | O =>
      match matchAt r prev s with
      | Some rest =>
          let m := Str.take (String.length s - String.length rest) s in
          f m +:+
          match s with
          | String c t =>
              match String.length m with
              | O => String c (replaceFrom r f (Some c) 0 t)
              | S n => replaceFrom r f (Some c) n t
              end
          | "" => ""
          end
      | None =>
          match s with
          | String c t => String c (replaceFrom r f (Some c) 0 t)
          | "" => ""
          end
      end
  end.

Definition replace (r : regex) (f : string → string) (s : string) : string :=
  replaceFrom r f None 0 s.

End RegExp.

(** ** Values of a parsed query string *)

Module JS.

(** What the query-string parser puts into [req.query]: strings, arrays
    and nested objects ([price[gt]=100] arrives as
    [{price: {gt: "100"}}]).  [JSON.parse] of a serialized query yields the
    same three shapes. *)
#[warnings="-register-all"]
Inductive value : Type :=
| VStr (s : string)
| VArr (items : list value)
| VObj (props : list (string * value)).

(** The own properties of an object, in enumeration order. *)
Abbreviation object := (list (string * value)).

(** Reading a property: [None] is [undefined]. *)
Fixpoint get (k : string) (o : object) : option value :=
  match o with
  | [] => None
  | (k', v) :: r => if String.eqb k' k then Some v else get k r
  end.

(** [delete o[k]]. *)
Definition remove (k : string) (o : object) : object :=
  List.filter (λ p, negb (String.eqb (fst p) k)) o.

Definition hasKey (k : string) (o : object) : bool :=
  existsb (λ p, String.eqb (fst p) k) o.

(** ToBoolean of a property that may be missing: [undefined] and the
    empty string are falsy, every array and object is truthy. *)
Definition truthy (v : option value) : bool :=
  match v with
  | None => false
  | Some (VStr "") => false
  | Some _ => true
  end.

(** ToString, where the conversion returns ([convertible] below): an array
    joins the strings of its items with commas, an object is
    ["[object Object]"], [undefined] is ["undefined"]. *)
Fixpoint toStringValue (v : value) : string :=
  match v with
  | VStr s => s
  | VArr items => Str.join "," (map toStringValue items)
  | VObj _ => "[object Object]"
  end.

Definition toString (v : option value) : string :=
  match v with
  | None => "undefined"
  | Some v => toStringValue v
  end.

(** The conversion to a string returns on every value except one that
    holds an object with an own property [toString].  Such a property
    holds a string, an array or an object, none of which can be called,
    and the inherited [valueOf] answers the object itself: the conversion
    finds no primitive and throws a [TypeError].  The query
    [?page[toString]=1] arrives as such an object. *)
Fixpoint convertible (v : value) : bool :=
  match v with
  | VStr _ => true
  | VArr items => forallb convertible items
  | VObj o => negb (hasKey "toString" o)
  end.

Definition convertibleParam (v : option value) : bool :=
  match v with
  | None => true
  | Some v => convertible v
  end.

(** *** parseInt *)

(** White space that [parseInt] skips, among the code units below 256. *)
Definition isWhiteSpace (c : ascii) : bool :=
  let n := Str.code c in
  (9 <=? n) && (n <=? 13) || (n =? 32) || (n =? 160).

Fixpoint trimStart (s : string) : string :=
  match s with
  | String c t => if isWhiteSpace c then trimStart t else s
  | "" => ""
  end.

Definition digitValue (c : ascii) : Z := Str.code c - 48.

(** The value of the longest prefix of decimal digits, read after [acc];
    [None] when there is no digit at all and nothing was read before. *)
Fixpoint digits (acc : option Z) (s : string) : option Z :=
  match s with
  | String c t =>
      if Str.isDigit c
      then digits (Some (10 * default 0 acc + digitValue c)) t
      else acc
  | "" => acc
  end.

(** [parseInt(string, 10)] on a string: leading white space, an optional
    sign, then the longest run of digits; [None] is [NaN]. *)
Definition parseIntString (s : string) : option Z :=
  match trimStart s with
  | String c t =>
      if Ascii.eqb c "-" then Z.opp <$> digits None t
      else if Ascii.eqb c "+" then digits None t
      else digits None (String c t)
  | "" => None
  end.

(** What [parseInt(v, 10)] answers when the conversion of [v] to a string
    returns; [ParseInt] below is the call with its conversion. *)
Definition parseInt (v : option value) : option Z :=
  parseIntString (toString v).

(** [n || d] on numbers: [NaN] and zero are falsy. *)
Definition orElse (n : option Z) (d : Z) : Z :=
  match n with
  | Some 0 | None => d
  | Some n => n
  end.

(** *** Defining a property

    An object enumerates its array-index keys first, in ascending numeric
    order, and then its other keys in the order they were created.
    Defining a key that exists replaces its value in place. *)

Definition arrayIndex (k : string) : option Z :=
  match k with
  | "" => None
  | String c t =>
      if forallb Str.isDigit (list_ascii_of_string k)
         && (negb (Ascii.eqb c "0") || String.eqb t "")
      then match digits None k with
           | Some n => if n <? 2 ^ 32 - 1 then Some n else None
           | None => None
           end
      else None
  end.

Fixpoint insertIndex (n : Z) (k : string) (v : value) (o : object) : object :=
  match o with
  | [] => [(k, v)]
  | (k', v') :: r =>
      match arrayIndex k' with
      | Some n' => if n' <? n then (k', v') :: insertIndex n k v r else (k, v) :: o
      | None => (k, v) :: o
      end
  end.

Definition define (k : string) (v : value) (o : object) : object :=
  if hasKey k o
  then map (λ p, if String.eqb (fst p) k then (k, v) else p) o
  else match arrayIndex k with
       | Some n => insertIndex n k v o
       | None => o ++ [(k, v)]
       end.

End JS.

(** ** JSON *)

Module JSON.
Import JS.

Definition hexDigit (n : Z) : ascii :=
  ascii_of_N (Z.to_N (if n <? 10 then 48 + n else 87 + n)).

(** The escape of one code unit inside a JSON string: the quote and the
    backslash take a backslash, control characters their short form or
    [\u00XX] in lower-case hexadecimal, anything else stands for itself. *)
Definition escapeChar (c : ascii) : string :=
  let n := Str.code c in
  if Ascii.eqb c Str.dquote then String Str.backslash (String Str.dquote "")
  else if Ascii.eqb c Str.backslash then String Str.backslash (String Str.backslash "")
  else if n =? 8 then String Str.backslash "b"
  else if n =? 9 then String Str.backslash "t"
  else if n =? 10 then String Str.backslash "n"
  else if n =? 12 then String Str.backslash "f"
  else if n =? 13 then String Str.backslash "r"
  else if n <? 32
  then String Str.backslash
         (String "u" (String "0" (String "0"
            (String (hexDigit (n / 16)) (String (hexDigit (n mod 16)) "")))))
  else String c "".

Fixpoint escape (s : string) : string :=
  match s with
  | "" => ""
  | String c t => escapeChar c +:+ escape t
  end.

Definition quote (s : string) : string :=
  String Str.dquote (escape s +:+ String Str.dquote "").

(** [JSON.stringify] without indentation. *)
Fixpoint stringify (v : value) : string :=
  match v with
  | VStr s => quote s
  | VArr items => "[" +:+ Str.join "," (map stringify items) +:+ "]"
  | VObj props =>
      "{" +:+ Str.join "," (map (λ p, quote (fst p) +:+ ":" +:+ stringify (snd p)) props)
          +:+ "}"
  end.

(** *** JSON.parse

    The texts that reach [JSON.parse] in the handler are serialized
    queries after the operator rewrite: strings, arrays and objects with no
    white space between the tokens.  The parser covers that grammar, on
    which [None] is the [SyntaxError] of the language; numbers, literals
    and white space, which such a text never holds, are not read. *)

Definition hexValue (c : ascii) : option Z :=
  let n := Str.code c in
  if Str.isDigit c then Some (n - 48)
  else if Str.between "a" "f" c then Some (n - 87)
  else if Str.between "A" "F" c then Some (n - 55)
  else None.

Definition unescape (c : ascii) : option ascii :=
  if Ascii.eqb c Str.dquote then Some Str.dquote
  else if Ascii.eqb c Str.backslash then Some Str.backslash
  else if Ascii.eqb c "/" then Some "/"%char
  else if Ascii.eqb c "b" then Some "008"%char
  else if Ascii.eqb c "f" then Some "012"%char
  else if Ascii.eqb c "n" then Some "010"%char
  else if Ascii.eqb c "r" then Some "013"%char
  else if Ascii.eqb c "t" then Some "009"%char
  else None.

Definition hex4 (a b c d : ascii) : option ascii :=
  a ← hexValue a; b ← hexValue b; c ← hexValue c; d ← hexValue d;
  let n := ((a * 16 + b) * 16 + c) * 16 + d in
  if n <? 256 then Some (ascii_of_N (Z.to_N n)) else None.

(** [expect c s] is what follows [c] in [s] when [s] starts with [c]. *)
Definition expect (c : ascii) (s : string) : option string :=
  match s with
  | String d t => if Ascii.eqb d c then Some t else None
  | "" => None
  end.

(** The characters of a string literal after its opening quote, with what
    follows the closing quote. *)
Fixpoint parseChars (s : string) : option (string * string) :=
  match s with
  | "" => None
  | String c t =>
      if Ascii.eqb c Str.dquote then Some ("", t)
      else if Ascii.eqb c Str.backslash then
        match t with
        | String e t' =>
            if Ascii.eqb e "u" then
              match t' with
              | String h1 (String h2 (String h3 (String h4 t''))) =>
                  ch ← hex4 h1 h2 h3 h4;
                  '(str, rest) ← parseChars t'';
                  Some (String ch str, rest)
              | _ => None
              end
            else
              ch ← unescape e;
              '(str, rest) ← parseChars t';
              Some (String ch str, rest)
        | "" => None
        end
      else if Str.code c <? 32 then None
      else '(str, rest) ← parseChars t; Some (String c str, rest)
  end.

Fixpoint parseValue (fuel : nat) (s : string) : option (value * string) :=
  match fuel with
  | O => None
  | S fuel =>
      match expect Str.dquote s with
      | Some t => '(str, rest) ← parseChars t; Some (VStr str, rest)
      | None =>
      match expect "[" s with
      | Some t =>
          match expect "]" t with
          | Some rest => Some (VArr [], rest)
          | None => '(items, rest) ← parseItems fuel t; Some (VArr items, rest)
          end
      | None =>
      match expect "{" s with
      | Some t =>
          match expect "}" t with
          | Some rest => Some (VObj [], rest)
          | None => '(o, rest) ← parseMembers fuel t []; Some (VObj o, rest)
          end
      | None => None
      end end end
  end
with parseItems (fuel : nat) (s : string) : option (list value * string) :=
  match fuel with
  | O => None
  | S fuel =>
      '(v, rest) ← parseValue fuel s;
      match expect "," rest with
      | Some rest' => '(vs, rest'') ← parseItems fuel rest'; Some (v :: vs, rest'')
      | None => rest' ← expect "]" rest; Some ([v], rest')
      end
  end
with parseMembers (fuel : nat) (s : string) (acc : object) : option (object * string) :=
  match fuel with
  | O => None
  | S fuel =>
      t ← expect Str.dquote s;
      '(k, rest) ← parseChars t;
      rest' ← expect ":" rest;
      '(v, rest'') ← parseValue fuel rest';
      match expect "," rest'' with
      | Some r => parseMembers fuel r (define k v acc)
      | None => r ← expect "}" rest''; Some (define k v acc, r)
      end
  end.

(** No value nests deeper than the text is long, and every step of the
    parser that does not consume a character is followed by one that does:
    twice the length of the text is fuel enough (for the texts of the
    handler this is [parse_filterText] below). *)
Definition parse (s : string) : option value :=
  match parseValue (S (2 * String.length s)) s with
  | Some (v, "") => Some v
  | _ => None
  end.

(** The text of one member of an object. *)
Definition member (p : string * value) : string :=
  quote (fst p) +:+ ":" +:+ stringify (snd p).

(** A bound on the fuel that parsing the serialization of a value takes. *)
Fixpoint weight (v : value) : nat :=
  match v with
  | VStr _ => 1
  | VArr items => S (list_sum (map (λ v, S (weight v)) items))
  | VObj props => S (list_sum (map (λ p, S (weight (snd p))) props))
  end.

(** A value whose serialization, whatever follows it, parses back to some
    value with any fuel above its weight. *)
Definition parsesBack (v : value) : Prop :=
  ∀ r fuel, (weight v ≤ fuel)%nat →
    ∃ v', parseValue fuel (stringify v +:+ r) = Some (v', r).

End JSON.

(** ** The store of objects and the handler monad *)

Module Heap.
Import JS.

Definition loc := positive.

(** The objects a handler reaches through its variables, by location.  Two
    variables that hold the same location designate the same object, and
    what is done to the object through one is seen through the other.  A
    property holds a value of the query; a nested object is part of that
    value, since the handlers only ever delete properties of the object a
    variable designates and never reach into a nested one. *)
Abbreviation store := (gmap loc object).

Inductive exception : Type :=
| TypeError (msg : string)
| SyntaxError (msg : string)
| StorageError (msg : string).

Inductive outcome (A : Type) : Type :=
| Return (a : A)
| Throw (e : exception).
Arguments Return {A} a.
Arguments Throw {A} e.

(** A computation over the store that returns or throws. *)
Definition M (A : Type) : Type := store → outcome A * store.

Definition ret {A} (a : A) : M A := λ σ, (Return a, σ).

Definition bind {A B} (m : M A) (f : A → M B) : M B :=
  λ σ, match m σ with
       | (Return a, σ') => f a σ'
       | (Throw e, σ') => (Throw e, σ')
       end.

#[global] Instance M_ret : MRet M := @ret.
#[global] Instance M_bind : MBind M := λ A B f m, bind m f.

Definition throw {A} (e : exception) : M A := λ σ, (Throw e, σ).

Definition lift {A} (r : outcome A) : M A := λ σ, (r, σ).

(** ToString as the language runs it: the text, or the [TypeError] of a
    conversion that does not return. *)
Definition ToString (v : option value) : outcome string :=
  if convertibleParam v then Return (toString v)
  else Throw (TypeError "Cannot convert object to primitive value").

(** [parseInt(v, 10)]: the argument is converted to a string first, then
    read; [None] is [NaN]. *)
Definition ParseInt (v : option value) : outcome (option Z) :=
  match ToString v with
  | Return s => Return (parseIntString s)
  | Throw e => Throw e
  end.

(** The properties of the object at [o]. *)
Definition load (o : loc) : M object := λ σ, (Return (default [] (σ !! o)), σ).

(** [o.k]. *)
Definition getProp (o : loc) (k : string) : M (option value) :=
  props ← load o; mret (get k props).

(** [{ ...src }]: a new object with the own properties of [src]. *)
Definition spread (src : loc) : M loc :=
  λ σ, let o := fresh (dom σ) in (Return o, <[o := default [] (σ !! src)]> σ).

(** [delete o[k]]: the object at [o] itself loses the property. *)
Definition deleteProp (o : loc) (k : string) : M unit :=
  λ σ, (Return tt, alter (remove k) o σ).

(** [l.forEach(f)]. *)
Fixpoint forEach {A} (l : list A) (f : A → M unit) : M unit :=
  match l with
  | [] => mret tt
  | a :: r => f a;; forEach r f
  end.

(** A computation that reads the store at most. *)
Definition readOnly {A} (m : M A) : Prop := ∀ σ, (m σ).2 = σ.

End Heap.


(** ** The storage layer *)

Module Mongoose.
Import JS Heap.

(** A query under construction: what [find], [populate], [select],
    [sort], [skip] and [limit] have recorded so far. *)
Record Query : Type := {
  conditions : value;
  populated : list string;
  selected : option string;
  sorted : option string;
  skipped : option Z;
  limited : option Z;
}.

Definition find (filter : value) : Query :=
  {| conditions := filter; populated := []; selected := None;
     sorted := None; skipped := None; limited := None |}.

Definition populate (path : string) (q : Query) : Query :=
  {| conditions := conditions q; populated := populated q ++ [path];
     selected := selected q; sorted := sorted q;
     skipped := skipped q; limited := limited q |}.

Definition select (fields : string) (q : Query) : Query :=
  {| conditions := conditions q; populated := populated q;
     selected := Some fields; sorted := sorted q;
     skipped := skipped q; limited := limited q |}.

Definition sort (arg : string) (q : Query) : Query :=
  {| conditions := conditions q; populated := populated q;
     selected := selected q; sorted := Some arg;
     skipped := skipped q; limited := limited q |}.

Definition skip (n : Z) (q : Query) : Query :=
  {| conditions := conditions q; populated := populated q;
     selected := selected q; sorted := sorted q;
     skipped := Some n; limited := limited q |}.

Definition limit (n : Z) (q : Query) : Query :=
  {| conditions := conditions q; populated := populated q;
     selected := selected q; sorted := sorted q;
     skipped := skipped q; limited := Some n |}.

(** The model [Bootcamp] of [models/Bootcamp], as far as the handlers use
    it: the collection behind it, which documents a filter selects, what
    awaiting a built query yields, and the lookup by id, which answers
    the document as the handler sees it or nothing; then the error, if
    there is one, with which the storage layer rejects
    [countDocuments()], and the one with which it rejects
    [findByIdAndUpdate(id, { photo })]. *)
Record Model (document : Type) : Type := {
  documents : list document;
  matches : value → document → bool;
  run : Query → outcome (list document);
  findById : string → option document;
  _id : document → string;
  countError : option exception;
  updateError : string → string → option exception;
}.
Arguments documents {document} m.
Arguments matches {document} m filter d.
Arguments run {document} m q.
Arguments findById {document} m id.
Arguments _id {document} m d.
Arguments countError {document} m.
Arguments updateError {document} m id photo.

(** [Model.countDocuments(filter)]: the number of documents the filter
    selects, and of all documents when no filter is given. *)
Definition countDocuments {document} (m : Model document) (filter : option value) : Z :=
  match filter with
  | None => Z.of_nat (length (documents m))
  | Some f => Z.of_nat (length (List.filter (matches m f) (documents m)))
  end.

(** [await Model.countDocuments()]: the number of all documents, unless
    the storage layer rejects the call. *)
Definition awaitCount {document} (m : Model document) : outcome Z :=
  match countError m with
  | Some e => Throw e
  | None => Return (countDocuments m None)
  end.

Inductive direction : Type := Ascending | Descending.

(** Modelled from the spec: the sort-string convention of the storage
    layer ([Query.prototype.sort] is not part of this file).  The
    argument is a list of field names separated by spaces; a leading
    hyphen means descending, otherwise ascending; earlier names take
    precedence. *)
Definition sortEntry (token : string) : string * direction :=
  match token with
  | String "-" field => (field, Descending)
  | field => (field, Ascending)
  end.

Definition sortSpec (arg : string) : list (string * direction) :=
  map sortEntry (List.filter (λ t, negb (String.eqb t "")) (Str.split " " arg)).

End Mongoose.

(** ** controllers/bootcamps.js *)

Module Bootcamps.
Import JS Heap Mongoose.

(** An uploaded file as the upload middleware presents it. *)
Record UploadedFile : Type := {
  name : string;
  mimetype : string;
  size : Z;
}.

(** The request: [req.query] designates an object of the store,
    [req.params.id] is a string, [req.files] is missing or maps field
    names to uploaded files. *)
Record request : Type := {
  query : loc;
  params_id : string;
  files : option (list (string * UploadedFile));
}.

(** The module's [exports], which is [this] in the handlers (arrow
    functions at the top level of the module).  [getBootcamps_length] is
    the [length] of [exports.getBootcamps], that is the number of formal
    parameters of the function [asyncHandler] returns. *)
Record exports : Type := { getBootcamps_length : Z }.

Record PageRef : Type := { page : Z; limit : Z }.

Record Pagination : Type := { next : option PageRef; prev : option PageRef }.

Record Response (document : Type) : Type := {
  status : Z;
  success : bool;
  count : Z;
  pagination : Pagination;
  data : list document;
}.
Arguments status {document} r.
Arguments success {document} r.
Arguments count {document} r.
Arguments pagination {document} r.
Arguments data {document} r.

(** *** getBootcamps *)

Definition removeFields : list string := ["select"; "sort"; "page"; "limit"].

(** [/\b(gt|gte|lt|lte|in)\b/g] *)
Definition operatorPattern : RegExp.regex :=
  RegExp.Seq
    [RegExp.Boundary;
     RegExp.Alt [RegExp.Lit "gt"; RegExp.Lit "gte"; RegExp.Lit "lt";
                 RegExp.Lit "lte"; RegExp.Lit "in"];
     RegExp.Boundary].

(** [match => `$${match}`] *)
Definition prefixDollar (m : string) : string := "$" +:+ m.

Definition JSON_stringify (o : loc) : M string :=
  props ← load o; mret (JSON.stringify (VObj props)).

Definition JSON_parse (text : string) : M value :=
  match JSON.parse text with
  | Some v => mret v
  | None => throw (SyntaxError "Unexpected token in JSON")
  end.

(** Lines 13 to 29: the filter handed to [Bootcamp.find]. *)
Definition buildFilter (req : request) : M value :=
  reqQuery ← spread (query req);
  forEach removeFields (λ param, deleteProp reqQuery param);;
  queryStr ← JSON_stringify reqQuery;
  let queryStr := RegExp.replace operatorPattern prefixDollar queryStr in
  JSON_parse queryStr.

(** What is left of an object's properties once [removeFields] have been
    deleted from it, one after the other. *)
Definition strip (o : object) : object :=
  foldl (λ o param, remove param o) o removeFields.

(** The text handed to [JSON.parse] for a query with properties [o]. *)
Definition filterText (o : object) : string :=
  RegExp.replace operatorPattern prefixDollar (JSON.stringify (VObj (strip o))).

(** [req.query.name.split(',').join(' ')]: only a string has [split]. *)
Definition splitJoin (name : string) (v : option value) : M string :=
  match v with
  | Some (VStr s) => mret (Str.join " " (Str.split "," s))
  | _ => throw (TypeError ("req.query." +:+ name +:+ ".split is not a function"))
  end.

(** A string, or nothing: what [select] and [sort] must be for [split] to
    exist when it is called. *)
Definition stringOrMissing (v : option value) : Prop :=
  v = None ∨ ∃ s, v = Some (VStr s).

(** Lines 31 to 35. *)
Definition buildProjection (req : request) (q : Query) : M Query :=
  sel ← getProp (query req) "select";
  if truthy sel
  then fields ← splitJoin "select" sel; mret (select fields q)
  else mret q.

(** Lines 37 to 43. *)
Definition buildSort (req : request) (q : Query) : M Query :=
  srt ← getProp (query req) "sort";
  if truthy srt
  then SortBy ← splitJoin "sort" srt; mret (sort SortBy q)
  else mret (sort "-createdAt" q).

(** Lines 45 to 69: the locals of the pagination block and the
    [pagination] object it fills in, once [page] and [limit] are parsed
    and the count is known. *)
Record Window : Type := {
  w_page : Z;
  w_limit : Z;
  startIndex : Z;
  endIndex : Z;
  w_total : Z;
  w_pagination : Pagination;
}.

Definition window (parsedPage parsedLimit : option Z) (total : Z) : Window :=
  let page := orElse parsedPage 1 in
  let limit := orElse parsedLimit 25 in
  let startIndex := (page - 1) * limit in
  let endIndex := page * limit in
  {| w_page := page;
     w_limit := limit;
     startIndex := startIndex;
     endIndex := endIndex;
     w_total := total;
     w_pagination :=
       {| next := if endIndex <? total
                  then Some {| page := page + 1; limit := limit |} else None;
          prev := if startIndex >? 0
                  then Some {| page := page - 1; limit := limit |} else None |} |}.

(** The block on the raw parameters, where their conversions to strings
    return. *)
Definition buildPagination (rawPage rawLimit : option value) (total : Z) : Window :=
  window (parseInt rawPage) (parseInt rawLimit) total.

(** [Number.MAX_SAFE_INTEGER].  The numbers of the language are doubles:
    sums, differences and products of integers are exact as long as the
    operands and the result are safe integers, and rounded beyond. *)
Definition MAX_SAFE_INTEGER : Z := 2 ^ 53 - 1.

Definition safeInteger (n : Z) : Prop := Z.abs n ≤ MAX_SAFE_INTEGER.

(** A window whose numbers are all safe integers: the language computes
    it as it is computed here. *)
Definition exactWindow (w : Window) : Prop :=
  safeInteger (w_page w) ∧ safeInteger (w_limit w)
  ∧ safeInteger (w_page w - 1) ∧ safeInteger (w_page w + 1)
  ∧ safeInteger (startIndex w) ∧ safeInteger (endIndex w)
  ∧ safeInteger (w_total w).

(** Lines 11 to 69: the query as it stands when it is awaited, and the
    pagination block's locals. *)
Definition buildQuery {document} (Bootcamp : Model document) (req : request)
    : M (Query * Window) :=
  filter ← buildFilter req;
  let q := populate "courses" (find filter) in
  q ← buildProjection req q;
  q ← buildSort req q;
  rawPage ← getProp (query req) "page";
  page ← lift (ParseInt rawPage);
  rawLimit ← getProp (query req) "limit";
  limit ← lift (ParseInt rawLimit);
  total ← lift (awaitCount Bootcamp);
  let w := window page limit total in
  mret (Mongoose.limit (w_limit w) (skip (startIndex w) q), w).

Definition getBootcamps {document} (this : exports) (Bootcamp : Model document)
    (req : request) : M (Response document) :=
  '(q, w) ← buildQuery Bootcamp req;
  bootcamps ← lift (run Bootcamp q);
  mret {| status := 200;
          success := true;
          count := getBootcamps_length this;
          pagination := w_pagination w;
          data := bootcamps |}.





(** *** bootcampPhotoUpload *)

(** Modelled from the spec: the class of [utils/errorResponse], which is
    not among the sources.  An error is a message with an HTTP status
    code. *)
Record ErrorResponse : Type := { message : string; statusCode : Z }.

(** [process.env], as far as the handler reads it. *)
Record Env : Type := {
  MAX_FILE_UPLOAD : option string;
  FILE_UPLOAD_PATH : option string;
}.

(** What the handler does to the world, in order. *)
Inductive effect : Type :=
| Mv (path : string)                        (* file.mv(path, callback) *)
| FindByIdAndUpdate (id photo : string)      (* the photo field is set *)
| ConsoleError (err : string).

(** How the handler answers.  The callback of [file.mv] is an async
    function that runs outside the wrapper: when the update it awaits
    rejects, its promise rejects, nothing handles the rejection and no
    answer is sent. *)
Inductive reply : Type :=
| Next (e : ErrorResponse)
| Json (status : Z) (data : string)
| Threw (e : exception)
| Unhandled (e : exception).

(** A missing variable of the environment prints as [undefined]. *)
Definition envText (v : option string) : string := default "undefined" v.

(** [req.files.file]: [None] is [undefined]. *)
Definition fileField (fs : list (string * UploadedFile)) : option UploadedFile :=
  snd <$> List.find (λ p, String.eqb (fst p) "file") fs.

Section PhotoUpload.
Context {document : Type}.

(** The language's reading of a string as a number, rounded down to an
    integer, which is all a comparison with an integer size depends on
    ([None] is [NaN]); and [path.parse(name).ext] of the platform. *)
Variable ToNumber : string → option Z.
Variable ext : string → string.

(** [size > process.env.MAX_FILE_UPLOAD]: a comparison with [NaN], and
    so with a missing variable, is false. *)
Definition exceeds (size : Z) (limit : option string) : bool :=
  match limit ≫= ToNumber with
  | Some n => size >? n
  | None => false
  end.

(** [mvError] is what [file.mv] passes to its callback. *)
Definition bootcampPhotoUpload (env : Env) (Bootcamp : Model document)
    (mvError : option string) (req : request) : list effect * reply :=
  match findById Bootcamp (params_id req) with
  | None =>
      ([], Next {| message := "Bootcamp not found with id of " +:+ params_id req;
                   statusCode := 404 |})
  | Some bootcamp =>
      match files req with
      | None => ([], Next {| message := "Please upload a file"; statusCode := 400 |})
      | Some fs =>
          match fileField fs with
          | None =>
              ([], Threw (TypeError
                            "Cannot read properties of undefined (reading 'mimetype')"))
          | Some file =>
              if negb (Str.startsWith (mimetype file) "image") then
                ([], Next {| message := "Please upload an image file";
                             statusCode := 400 |})
              else if exceeds (size file) (MAX_FILE_UPLOAD env) then
                ([], Next {| message := "Please upload an image less than "
                                        +:+ envText (MAX_FILE_UPLOAD env);
                             statusCode := 400 |})
              else
                let name := "photo_" +:+ _id Bootcamp bootcamp +:+ ext (name file) in
                let path := envText (FILE_UPLOAD_PATH env) +:+ "/" +:+ name in
                match mvError with
                | Some err =>
                    ([Mv path; ConsoleError err],
                     Next {| message := "Problem with file upload";
                             statusCode := 500 |})
                | None =>
                    match updateError Bootcamp (params_id req) name with
                    | Some e => ([Mv path], Unhandled e)
                    | None =>
                        ([Mv path; FindByIdAndUpdate (params_id req) name],
                         Json 200 name)
                    end
                end
          end
      end
  end.

End PhotoUpload.

End Bootcamps.

(** ** The operator rewrite, as the specification words it

    The text is cut into its maximal runs of word characters and of other
    characters; a run that is one of the operator tokens takes a dollar
    sign, everything else stays as it is. *)

Module Words.

Definition operators : list string := ["gt"; "gte"; "lt"; "lte"; "in"].

Definition isOperator (w : string) : bool := existsb (String.eqb w) operators.

(** [c] is of the same class, word or not, as the first character of [r]. *)
Definition sameClass (c : ascii) (r : string) : bool :=
  match r with
  | String d _ => Bool.eqb (Str.isWordChar c) (Str.isWordChar d)
  | "" => false
  end.

Fixpoint runs (s : string) : list string :=
  match s with
  | "" => []
  | String c t =>
      match runs t with
      | r :: rs => if sameClass c r then String c r :: rs else String c "" :: r :: rs
      | [] => [String c ""]
      end
  end.

Definition rewriteRun (r : string) : string :=
  if isOperator r then "$" +:+ r else r.

Definition rewriteWords (s : string) : string :=
  Str.concat (map rewriteRun (runs s)).

(** Devices of the proofs: a string of word characters only, and what the
    alternatives of the pattern, tried in order at the start of [s], leave
    of the text. *)
Fixpoint allWord (w : string) : bool :=
  match w with
  | "" => true
  | String c t => Str.isWordChar c && allWord t
  end.

Definition tryLit (prev : option ascii) (s op : string) : option string :=
  match Str.stripPrefix op s with
  | Some rest => if RegExp.atBoundary (Str.lastOr prev op) rest then Some rest else None
  | None => None
  end.

Fixpoint firstMatch (prev : option ascii) (ops : list string) (s : string)
    : option string :=
  match ops with
  | [] => None
  | op :: ops' =>
      match tryLit prev s op with
      | Some rest => Some rest
      | None => firstMatch prev ops' s
      end
  end.

(** The longest prefix of word characters, and what follows it. *)
Fixpoint wordPrefix (s : string) : string :=
  match s with
  | String c t => if Str.isWordChar c then String c (wordPrefix t) else ""
  | "" => ""
  end.

Fixpoint wordRest (s : string) : string :=
  match s with
  | String c t => if Str.isWordChar c then wordRest t else s
  | "" => ""
  end.

(** [Dollars t t']: the text [t'] is [t] with dollar signs put before some
    of its characters [g], [l] and [i], the characters the operator tokens
    begin with. *)
Definition opensOperator (c : ascii) : bool :=
  Ascii.eqb c "g" || Ascii.eqb c "l" || Ascii.eqb c "i".

Inductive Dollars : string → string → Prop :=
| Dollars_nil : Dollars "" ""
| Dollars_copy c t t' : Dollars t t' → Dollars (String c t) (String c t')
| Dollars_insert c t t' :
    opensOperator c = true → Dollars t t' →
    Dollars (String c t) (String "$" (String c t')).

End Words.

(** ** Sample requests and collections *)

Module Samples.
Import JS Heap Mongoose Bootcamps.

(** A store holding one query object at location 1. *)
Definition storeOf (props : object) : store := {[ 1%positive := props ]}.

Definition request1 : request :=
  {| query := 1%positive; params_id := "5d713995b721c3bb38c1f5d0"; files := None |}.

(** [?select=name&page=2]: reserved keys only. *)
Definition reservedOnly : object := [("select", VStr "name"); ("page", VStr "2")].

(** [?price[gte]=10&name=in&select=name,email&sort=name,-rating&page=2&limit=10] *)
Definition fullQuery : object :=
  [("price", VObj [("gte", VStr "10")]); ("name", VStr "in");
   ("select", VStr "name,email"); ("sort", VStr "name,-rating");
   ("page", VStr "2"); ("limit", VStr "10")].

(** A collection of three documents, numbered 0 to 2.  An empty filter
    selects them all, any other filter selects document 0 only; awaiting
    a query yields the documents its filter selects. *)
Definition selects (filter : value) (d : nat) : bool :=
  match filter with
  | VObj [] => true
  | _ => Nat.eqb d 0
  end.

Definition threeDocuments : Model nat :=
  {| documents := [0; 1; 2]%nat;
     matches := selects;
     run := λ q, Return (List.filter (selects (conditions q)) [0; 1; 2]%nat);
     findById := λ id, if String.eqb id "5d713995b721c3bb38c1f5d0"
                       then Some 0%nat else None;
     _id := λ _, "5d713995b721c3bb38c1f5d0";
     countError := None;
     updateError := λ _ _, None |}.

(** A collection whose queries all yield [docs]. *)
Definition yielding (docs : list unit) : Model unit :=
  {| documents := docs;
     matches := λ _ _, true;
     run := λ _, Return docs;
     findById := λ _, None;
     _id := λ _, "";
     countError := None;
     updateError := λ _ _, None |}.

(** [?name=in]: a field value that reads like an operator. *)
Definition namedIn : object := [("name", VStr "in")].

(** [?select=name&select=email]: the parameter arrives as an array. *)
Definition selectTwice : object := [("select", VArr [VStr "name"; VStr "email"])].

(** [?limit=1] and [?name=x&limit=1] *)
Definition firstOfAll : object := [("limit", VStr "1")].
Definition firstOfNamed : object := [("name", VStr "x"); ("limit", VStr "1")].

(** An upload of a text file to bootcamp [5d713995b721c3bb38c1f5d0]. *)
Definition textUpload : request :=
  {| query := 1%positive;
     params_id := "5d713995b721c3bb38c1f5d0";
     files := Some [("file", {| name := "notes.txt"; mimetype := "text/plain";
                                size := 120 |})] |}.

Definition environment : Env :=
  {| MAX_FILE_UPLOAD := Some "1000000"; FILE_UPLOAD_PATH := Some "./public/uploads" |}.

End Samples.

(** ** The parameters of a query *)

Module Params.
Import JS Bootcamps.

(** One of the keys the handler deletes from the copy of the query. *)
Definition isReserved (k : string) : bool := existsb (String.eqb k) removeFields.

(** The properties whose key is not reserved, in their order. *)
Definition nonReserved (o : object) : object :=
  List.filter (λ p, negb (isReserved (fst p))) o.

Fixpoint mapChars (f : ascii → ascii) (s : string) : string :=
  match s with
  | "" => ""
  | String c t => String (f c) (mapChars f t)
  end.

(** Every comma replaced by a space. *)
Definition commasToSpaces : string → string :=
  mapChars (λ c, if Ascii.eqb c "," then " "%char else c).

(** The argument of [select], when [select] is called, and the argument of
    [sort], read off the query. *)
Definition projectionOf (o : object) : option string :=
  match get "select" o with
  | Some (VStr (String c t)) => Some (commasToSpaces (String c t))
  | _ => None
  end.

Definition sortOf (o : object) : string :=
  match get "sort" o with
  | Some (VStr (String c t)) => commasToSpaces (String c t)
  | _ => "-createdAt"
  end.

(** A character at which [parseInt] stops reading wherever it stands:
    neither a digit, nor white space, nor a sign. *)
Definition stopsParseInt (c : ascii) : bool :=
  negb (Str.isDigit c) && negb (isWhiteSpace c)
  && negb (Ascii.eqb c "-") && negb (Ascii.eqb c "+").

End Params.

(** ** The shape of a query *)

Module Shape.
Import JS JSON Words.

(** [f] applied to every key and every string of a value. *)
Fixpoint mapStrings (f : string → string) (v : value) : value :=
  match v with
  | VStr s => VStr (f s)
  | VArr items => VArr (map (mapStrings f) items)
  | VObj props => VObj (map (λ p, (f (fst p), mapStrings f (snd p))) props)
  end.

(** A character that [JSON.stringify] writes as it is. *)
Definition plainChar (c : ascii) : bool :=
  negb (Str.code c <? 32) && negb (Ascii.eqb c Str.dquote)
  && negb (Ascii.eqb c Str.backslash).

Fixpoint plain (s : string) : bool :=
  match s with
  | "" => true
  | String c t => plainChar c && plain t
  end.

Definition isIndex (k : string) : bool :=
  match arrayIndex k with Some _ => true | None => false end.

Fixpoint distinct (l : list string) : bool :=
  match l with
  | [] => true
  | k :: r => negb (existsb (String.eqb k) r) && distinct r
  end.

(** An object whose keys are pairwise distinct and none of them an array
    index, so that it enumerates its properties in the order they were
    defined; and so for the objects nested in it. *)
Fixpoint canonical (v : value) : bool :=
  match v with
  | VStr _ => true
  | VArr items => forallb canonical items
  | VObj props =>
      distinct (map fst props)
      && forallb (λ p, negb (isIndex (fst p)) && canonical (snd p)) props
  end.

(** A value whose keys and strings hold no quote, no backslash and no
    control character. *)
Fixpoint plainStrings (v : value) : bool :=
  match v with
  | VStr s => plain s
  | VArr items => forallb plainStrings items
  | VObj props => forallb (λ p, plain (fst p) && plainStrings (snd p)) props
  end.

Definition tidy (v : value) : bool := canonical v && plainStrings v.

(** A value whose serialization, whatever follows it, parses back to the
    value itself with any fuel above its weight. *)
Definition readsBack (v : value) : Prop :=
  ∀ r fuel, (weight v ≤ fuel)%nat → parseValue fuel (stringify v +:+ r) = Some (v, r).

End Shape.
(** ** More sample requests *)

Module Cases.
Import JS Heap Mongoose Bootcamps.

(** An upload of a picture to bootcamp [5d713995b721c3bb38c1f5d0]. *)
Definition pictureUpload (bytes : Z) : request :=
  {| query := 1%positive;
     params_id := "5d713995b721c3bb38c1f5d0";
     files := Some [("file", {| name := "camp.jpg"; mimetype := "image/jpeg";
                                size := bytes |})] |}.

(** An environment in which [MAX_FILE_UPLOAD] is not set. *)
Definition noLimit : Env :=
  {| MAX_FILE_UPLOAD := None; FILE_UPLOAD_PATH := Some "./public/uploads" |}.

(** [?averageCost[lte]=10000&careers[in]=Business&careers[in]=in&$gt=gte lt-x&page=2]:
    operator tokens as keys, as values, inside an array and inside a
    string, and a key that carries a dollar sign already. *)
Definition operatorsEverywhere : object :=
  [("averageCost", VObj [("lte", VStr "10000")]);
   ("careers", VObj [("in", VArr [VStr "Business"; VStr "in"])]);
   ("$gt", VStr "gte lt-x");
   ("page", VStr "2")].

(** The collection of three documents behind a storage layer that
    rejects the count and every update of a photo field. *)
Definition unreachable : Model nat :=
  {| documents := documents Samples.threeDocuments;
     matches := matches Samples.threeDocuments;
     run := run Samples.threeDocuments;
     findById := findById Samples.threeDocuments;
     _id := _id Samples.threeDocuments;
     countError := Some (StorageError "MongoNetworkError");
     updateError := λ _ _, Some (StorageError "MongoNetworkError") |}.

(** [?page[toString]=1]: the page is an object with a property
    [toString] of its own. *)
Definition pageWithToString : object :=
  [("page", VObj [("toString", VStr "1")])].

(** A query that mentions no operator; the name holds a tab. *)
Definition noOperator : object :=
  [("name", VStr ("Dev" +:+ String "009"%char "Works"));
   ("housing", VStr "true");
   ("location", VObj [("city", VStr "Boston")]);
   ("limit", VStr "5")].

End Cases.

(** * Properties *)

(** ** The handler on sample requests *)

Section Examples.
Import JS Heap Mongoose Bootcamps.

Example filter_of_price_gt :
  (buildFilter Samples.request1
     (Samples.storeOf [("price", VObj [("gt", VStr "10")]); ("page", VStr "2")])).1
  = Return (VObj [("price", VObj [("$gt", VStr "10")])]).
Proof. reflexivity. Qed.

Example query_of_full_request :
  (buildQuery Samples.threeDocuments Samples.request1
     (Samples.storeOf Samples.fullQuery)).1
  = Return
      ({| conditions := VObj [("price", VObj [("$gte", VStr "10")]); ("name", VStr "$in")];
          populated := ["courses"];
          selected := Some "name email";
          sorted := Some "name -rating";
          skipped := Some 10;
          limited := Some 10 |},
       buildPagination (Some (VStr "2")) (Some (VStr "10")) 3).
Proof. reflexivity. Qed.

Example page_2_of_25 :
  buildPagination (Some (VStr "2")) (Some (VStr "10")) 25
  = {| w_page := 2; w_limit := 10; startIndex := 10; endIndex := 20; w_total := 25;
       w_pagination := {| next := Some {| page := 3; limit := 10 |};
                          prev := Some {| page := 1; limit := 10 |} |} |}.
Proof. reflexivity. Qed.

Example defaults_of_5 :
  buildPagination None None 5
  = {| w_page := 1; w_limit := 25; startIndex := 0; endIndex := 25; w_total := 5;
       w_pagination := {| next := None; prev := None |} |}.
Proof. reflexivity. Qed.

Example last_page_has_no_next :
  w_pagination (buildPagination (Some (VStr "1")) (Some (VStr "25")) 25)
  = {| next := None; prev := None |}.
Proof. reflexivity. Qed.

Example parseInt_reads_a_prefix :
  parseIntString "12abc" = Some 12 ∧ parseIntString "  -7.5" = Some (-7)
  ∧ parseIntString "abc" = None ∧ parseIntString "" = None
  ∧ parseInt (Some (VArr [VStr "3"; VStr "4"])) = Some 3
  ∧ parseInt (Some (VObj [])) = None.
Proof. repeat split. Qed.

End Examples.

(** ** The store *)

Section StoreFacts.
Import JS Heap.

Lemma bind_return {A B} (m : M A) (f : A → M B) σ a σ' :
  m σ = (Return a, σ') → (m ≫= f) σ = f a σ'.
Proof. intros H. unfold mbind, M_bind, bind. by rewrite H. Qed.

Lemma bind_throw {A B} (m : M A) (f : A → M B) σ e σ' :
  m σ = (Throw e, σ') → (m ≫= f) σ = (Throw e, σ').
Proof. intros H. unfold mbind, M_bind, bind. by rewrite H. Qed.

Lemma bind_inv {A B} (m : M A) (f : A → M B) σ b σ'' :
  (m ≫= f) σ = (Return b, σ'') →
  ∃ a σ', m σ = (Return a, σ') ∧ f a σ' = (Return b, σ'').
Proof.
  unfold mbind, M_bind, bind. destruct (m σ) as [[a|e] σ'] eqn:E; [eauto|done].
Qed.

Lemma load_run o (σ : store) props :
  σ !! o = Some props → load o σ = (Return props, σ).
Proof. intros H. unfold load. by rewrite H. Qed.

Lemma getProp_run o k (σ : store) props :
  σ !! o = Some props → getProp o k σ = (Return (get k props), σ).
Proof. intros H. unfold getProp. by rewrite (bind_return _ _ _ _ _ (load_run _ _ _ H)). Qed.

Lemma spread_run src (σ : store) props :
  σ !! src = Some props →
  spread src σ = (Return (fresh (dom σ)), <[fresh (dom σ) := props]> σ).
Proof. intros H. unfold spread. by rewrite H. Qed.

Lemma fresh_lookup (σ : store) : σ !! fresh (dom σ) = None.
Proof. apply not_elem_of_dom, is_fresh. Qed.

(** An object that exists is not the one [spread] creates. *)
Lemma fresh_ne (σ : store) o : is_Some (σ !! o) → fresh (dom σ) ≠ o.
Proof. intros [x Hx] E. rewrite <- E, fresh_lookup in Hx. done. Qed.

Lemma lift_inv {A} (r : outcome A) (σ σ' : store) a :
  lift r σ = (Return a, σ') → r = Return a ∧ σ' = σ.
Proof. unfold lift. by intros [= -> ->]. Qed.

Lemma ParseInt_Return v r :
  ParseInt v = Return r → convertibleParam v = true ∧ r = parseInt v.
Proof.
  unfold ParseInt, ToString. destruct (convertibleParam v); [|done].
  by intros [= <-].
Qed.

Lemma ParseInt_convertible v :
  convertibleParam v = true → ParseInt v = Return (parseInt v).
Proof. unfold ParseInt, ToString. by intros ->. Qed.

Lemma forEach_delete (l : list string) o (σ : store) :
  forEach l (λ param, deleteProp o param) σ
  = (Return tt, alter (λ props, foldl (λ props param, remove param props) props l) o σ).
Proof.
  revert σ. induction l as [|k l IH]; intros σ; simpl.
  - unfold mret, M_ret, ret. f_equal. symmetry. by apply alter_id.
  - erewrite bind_return by reflexivity. rewrite IH. f_equal.
    by rewrite alter_alter_eq.
Qed.

End StoreFacts.

(** ** The filter *)

Section FilterFacts.
Import JS Heap Mongoose Bootcamps.

(** The run of [buildFilter] on a request whose query exists: the copy is
    a new object, the deletions act on the copy, and the filter is parsed
    from the rewritten text of what is left. *)
Lemma buildFilter_run req (σ : store) props :
  σ !! query req = Some props →
  buildFilter req σ
  = (match JSON.parse (filterText props) with
     | Some v => Return v
     | None => Throw (SyntaxError "Unexpected token in JSON")
     end,
     <[fresh (dom σ) := strip props]> σ).
Proof.
  intros H. unfold buildFilter.
  rewrite (bind_return _ _ _ _ _ (spread_run _ _ _ H)).
  rewrite (bind_return _ _ _ _ _ (forEach_delete _ _ _)).
  rewrite alter_insert_eq. fold (strip props).
  unfold JSON_stringify.
  erewrite bind_return; [|erewrite bind_return; [reflexivity|]];
    [|apply load_run, lookup_insert_eq].
  unfold JSON_parse. fold (filterText props).
  by destruct (JSON.parse (filterText props)).
Qed.

(** Whatever [buildFilter] answers, the objects that existed before are
    as they were. *)
Lemma buildFilter_frame req (σ σ' : store) props r o :
  σ !! query req = Some props →
  buildFilter req σ = (r, σ') →
  is_Some (σ !! o) → σ' !! o = σ !! o.
Proof.
  intros H E Ho. rewrite (buildFilter_run _ _ _ H) in E.
  injection E as _ <-. apply lookup_insert_ne. by apply fresh_ne.
Qed.

(** Were the deletions made through [req.query] itself instead of a copy,
    the object would lose its reserved properties. *)
Lemma delete_through_alias o (σ : store) props :
  σ !! o = Some props →
  (forEach removeFields (λ param, deleteProp o param) σ).2 !! o = Some (strip props).
Proof.
  intros H. rewrite forEach_delete. simpl. rewrite lookup_alter_eq, H. done.
Qed.

Lemma remove_In k (o : object) p : p ∈ remove k o → p ∈ o ∧ fst p ≠ k.
Proof.
  unfold remove. rewrite !list_elem_of_In, filter_In. intros [Hp Hk]. split; [done|].
  intros E. rewrite E, String.eqb_refl in Hk. done.
Qed.

Lemma strip_reserved (o : object) :
  Forall (λ p, fst p ∈ removeFields) o → strip o = [].
Proof.
  intros H. destruct (strip o) as [|p r] eqn:E; [done|exfalso].
  assert (Hp : p ∈ strip o) by (rewrite E; left).
  unfold strip, removeFields in Hp. simpl in Hp.
  apply remove_In in Hp as [Hp H4]. apply remove_In in Hp as [Hp H3].
  apply remove_In in Hp as [Hp H2]. apply remove_In in Hp as [Hp H1].
  rewrite Forall_forall in H. specialize (H _ Hp).
  unfold removeFields in H. set_unfold.
  destruct H as [?|[?|[?|[?|[]]]]]; congruence.
Qed.

End FilterFacts.

(** ** Steps that leave the store alone *)

Section Purity.
Import JS Heap Mongoose Bootcamps.

Lemma readOnly_ret {A} (a : A) : readOnly (mret a).
Proof. by intros σ. Qed.

Lemma readOnly_throw {A} e : readOnly (@throw A e).
Proof. by intros σ. Qed.

Lemma readOnly_lift {A} (r : outcome A) : readOnly (lift r).
Proof. by intros σ. Qed.

Lemma readOnly_load o : readOnly (load o).
Proof. by intros σ. Qed.

Lemma readOnly_bind {A B} (m : M A) (f : A → M B) :
  readOnly m → (∀ a, readOnly (f a)) → readOnly (m ≫= f).
Proof.
  intros Hm Hf σ. unfold mbind, M_bind, bind. specialize (Hm σ).
  destruct (m σ) as [[a|e] σ']; simpl in *; subst; [apply Hf|done].
Qed.

Lemma readOnly_getProp o k : readOnly (getProp o k).
Proof. apply readOnly_bind; [apply readOnly_load|intros; apply readOnly_ret]. Qed.

Lemma readOnly_splitJoin name v : readOnly (splitJoin name v).
Proof. destruct v as [[| |]|]; by intros σ. Qed.

Lemma readOnly_buildProjection req q : readOnly (buildProjection req q).
Proof.
  apply readOnly_bind; [apply readOnly_getProp|intros sel].
  destruct (truthy sel); [|apply readOnly_ret].
  apply readOnly_bind; [apply readOnly_splitJoin|intros; apply readOnly_ret].
Qed.

Lemma readOnly_buildSort req q : readOnly (buildSort req q).
Proof.
  apply readOnly_bind; [apply readOnly_getProp|intros srt].
  destruct (truthy srt); [|apply readOnly_ret].
  apply readOnly_bind; [apply readOnly_splitJoin|intros; apply readOnly_ret].
Qed.

(** After a first step, read-only steps keep the store the first step
    left. *)
Lemma bind_readOnly_store {A B} (m : M A) (f : A → M B) σ :
  (∀ a, readOnly (f a)) → ((m ≫= f) σ).2 = (m σ).2.
Proof.
  intros Hf. unfold mbind, M_bind, bind.
  destruct (m σ) as [[a|e] σ']; [apply Hf|done].
Qed.

Lemma buildQuery_store {document} (Bootcamp : Model document) req σ :
  (buildQuery Bootcamp req σ).2 = (buildFilter req σ).2.
Proof.
  unfold buildQuery. apply bind_readOnly_store. intros filter.
  apply readOnly_bind; [apply readOnly_buildProjection|intros q1].
  apply readOnly_bind; [apply readOnly_buildSort|intros q2].
  apply readOnly_bind; [apply readOnly_getProp|intros rawPage].
  apply readOnly_bind; [apply readOnly_lift|intros page].
  apply readOnly_bind; [apply readOnly_getProp|intros rawLimit].
  apply readOnly_bind; [apply readOnly_lift|intros limit].
  apply readOnly_bind; [apply readOnly_lift|intros total].
  apply readOnly_ret.
Qed.

Lemma getBootcamps_store {document} this (Bootcamp : Model document) req σ :
  (getBootcamps this Bootcamp req σ).2 = (buildFilter req σ).2.
Proof.
  unfold getBootcamps. rewrite bind_readOnly_store; [apply buildQuery_store|].
  intros [q w]. apply readOnly_bind; [apply readOnly_lift|intros; apply readOnly_ret].
Qed.

End Purity.

(** ** The filter and the query object *)

Section FilterProperties.
Import JS Heap Mongoose Bootcamps.

(** C8. When every key of the query is one of the reserved keys [select],
    [sort], [page] and [limit], the filter handed to the storage layer is
    the empty object. *)
Theorem buildFilter_reserved_only req (σ : store) props :
  σ !! query req = Some props →
  Forall (λ p, fst p ∈ removeFields) props →
  (buildFilter req σ).1 = Return (VObj []).
Proof.
  intros H Hres. rewrite (buildFilter_run _ _ _ H). unfold filterText.
  rewrite (strip_reserved _ Hres). reflexivity.
Qed.

Lemma buildFilter_reserved_only_witness :
  (buildFilter Samples.request1 (Samples.storeOf Samples.reservedOnly)).1
  = Return (VObj []).
Proof.
  apply (buildFilter_reserved_only Samples.request1
           (Samples.storeOf Samples.reservedOnly) Samples.reservedOnly).
  - reflexivity.
  - unfold Samples.reservedOnly, removeFields.
    repeat (apply Forall_cons; split; [set_unfold; simpl; tauto|]).
    apply Forall_nil_2.
Defined.

(** C9. The filter is built from a copy: whatever [buildFilter] and the
    whole of [getBootcamps] answer, the object [req.query] designates holds
    afterwards the properties it held before, the reserved ones included,
    and so does every other object that existed. *)
Theorem query_object_unchanged {document} this (Bootcamp : Model document)
    req (σ : store) props :
  σ !! query req = Some props →
  (buildFilter req σ).2 !! query req = Some props
  ∧ (getBootcamps this Bootcamp req σ).2 !! query req = Some props
  ∧ (∀ k, (getProp (query req) k (buildFilter req σ).2).1 = Return (get k props))
  ∧ σ ⊆ (buildFilter req σ).2.
Proof.
  intros H.
  assert (E : (buildFilter req σ).2 !! query req = Some props).
  { rewrite <- H. eapply buildFilter_frame; [exact H|apply surjective_pairing|by eexists]. }
  split; [exact E|]. split; [by rewrite getBootcamps_store|]. split.
  - intros k. by rewrite (getProp_run _ _ _ _ E).
  - rewrite (buildFilter_run _ _ _ H). simpl.
    apply insert_subseteq, fresh_lookup.
Qed.

Lemma query_object_unchanged_witness :
  (getBootcamps {| getBootcamps_length := 3 |} Samples.threeDocuments
     Samples.request1 (Samples.storeOf Samples.fullQuery)).2 !! query Samples.request1
  = Some Samples.fullQuery.
Proof.
  apply (query_object_unchanged {| getBootcamps_length := 3 |} Samples.threeDocuments
           Samples.request1 (Samples.storeOf Samples.fullQuery) Samples.fullQuery).
  reflexivity.
Defined.

End FilterProperties.

(** ** The pagination block *)

Section PaginationProperties.
Import JS Heap Mongoose Bootcamps.





Lemma orElse_nonzero n d : n ≠ 0 → orElse (Some n) d = n.
Proof. by destruct n. Qed.

Ltac safe_integers :=
  unfold exactWindow, safeInteger; repeat split; vm_compute; intros Hgt; discriminate Hgt.




(** C2, as stated, fails: with [page=2] and [limit=-5] the page used is
    above 1 and yet there is no [prev]; with [page=-1] and [limit=-5] the
    page used is below 1 and yet there is a [prev].  Both windows are
    within the safe integers. *)
Lemma prev_is_not_page_above_1 :
  let w := buildPagination (Some (VStr "2")) (Some (VStr "-5")) 100 in
  let w' := buildPagination (Some (VStr "-1")) (Some (VStr "-5")) 100 in
  (w_page w = 2 ∧ w_limit w = -5 ∧ startIndex w = -5
   ∧ prev (w_pagination w) = None
   ∧ ¬ (is_Some (prev (w_pagination w)) ↔ w_page w > 1))
  ∧ (w_page w' = -1 ∧ w_limit w' = -5 ∧ startIndex w' = 10
     ∧ prev (w_pagination w') = Some {| page := -2; limit := -5 |}
     ∧ ¬ (is_Some (prev (w_pagination w')) ↔ w_page w' > 1))
  ∧ exactWindow w ∧ exactWindow w'.
Proof.
  cbv zeta. split; [|split; [|split; [safe_integers|safe_integers]]];
    repeat split; try reflexivity.
  - intros [_ H]. destruct H as [x Hx]; [reflexivity|discriminate Hx].
  - intros [H _]. specialize (H ltac:(by eexists)). vm_compute in H. discriminate H.
Qed.

(** C2, amended. For a [page] and a [limit] that convert to strings and
    a window within the safe integers, where the arithmetic of the
    language is exact: [next] is [{page: page+1, limit}] exactly when
    [page * limit < total], strictly, and is absent otherwise; [prev] is
    [{page: page-1, limit}] exactly when [(page - 1) * limit > 0] and is
    absent otherwise; for a positive limit that condition is
    [page > 1]. *)
Theorem pagination_next_prev rawPage rawLimit total :
  let w := buildPagination rawPage rawLimit total in
  let nextRef := {| page := w_page w + 1; limit := w_limit w |} in
  let prevRef := {| page := w_page w - 1; limit := w_limit w |} in
  convertibleParam rawPage = true → convertibleParam rawLimit = true →
  exactWindow w →
  (next (w_pagination w) = Some nextRef ↔ w_page w * w_limit w < total)
  ∧ (next (w_pagination w) = None ↔ total ≤ w_page w * w_limit w)
  ∧ (prev (w_pagination w) = Some prevRef ↔ (w_page w - 1) * w_limit w > 0)
  ∧ (prev (w_pagination w) = None ↔ (w_page w - 1) * w_limit w ≤ 0)
  ∧ (0 < w_limit w →
       (prev (w_pagination w) = Some prevRef ↔ w_page w > 1)
       ∧ (prev (w_pagination w) = None ↔ w_page w ≤ 1)).
Proof.
  cbv zeta. intros _ _ _. simpl.
  set (p := orElse (parseInt rawPage) 1). set (l := orElse (parseInt rawLimit) 25).
  destruct (Z.ltb_spec (p * l) total); destruct (Z.gtb_spec ((p - 1) * l) 0);
    repeat split; intros; try done; try lia; try nia.
Qed.

Lemma pagination_next_prev_witness :
  prev (w_pagination (buildPagination (Some (VStr "2")) (Some (VStr "10")) 25))
  = Some {| page := 1; limit := 10 |}
  ∧ next (w_pagination (buildPagination (Some (VStr "1")) (Some (VStr "25")) 25))
    = None.
Proof.
  split.
  - destruct (pagination_next_prev (Some (VStr "2")) (Some (VStr "10")) 25
                eq_refl eq_refl ltac:(safe_integers))
      as (_ & _ & _ & _ & H).
    apply H; reflexivity.
  - destruct (pagination_next_prev (Some (VStr "1")) (Some (VStr "25")) 25
                eq_refl eq_refl ltac:(safe_integers))
      as (_ & H & _).
    apply H. vm_compute. discriminate.
Defined.

(** What [buildQuery] returns for a request whose query exists: the
    window is computed from the [page] and [limit] of the original query
    and from the size of the whole collection, and the query skips
    [startIndex] documents and is limited to [limit]. *)
Lemma buildQuery_inv {document} (Bootcamp : Model document) req (σ σ' : store)
    props q w :
  σ !! query req = Some props →
  buildQuery Bootcamp req σ = (Return (q, w), σ') →
  w = buildPagination (get "page" props) (get "limit" props)
        (Z.of_nat (length (documents Bootcamp)))
  ∧ skipped q = Some (startIndex w)
  ∧ limited q = Some (w_limit w).
Proof.
  intros H E. unfold buildQuery in E.
  apply bind_inv in E as (filter & σ1 & E1 & E).
  assert (H1 : σ1 !! query req = Some props).
  { rewrite <- H. eapply buildFilter_frame; [exact H|exact E1|by eexists]. }
  apply bind_inv in E as (q1 & σ2 & E2 & E).
  pose proof (readOnly_buildProjection req (populate "courses" (find filter)) σ1)
    as R2.
  rewrite E2 in R2.
  simpl in R2. subst σ2.
  apply bind_inv in E as (q2 & σ3 & E3 & E).
  pose proof (readOnly_buildSort req q1 σ1) as R3. rewrite E3 in R3.
  simpl in R3. subst σ3.
  rewrite (bind_return _ _ _ _ _ (getProp_run _ "page" _ _ H1)) in E.
  apply bind_inv in E as (page & σ4 & [Ep ->]%lift_inv & E).
  rewrite (bind_return _ _ _ _ _ (getProp_run _ "limit" _ _ H1)) in E.
  apply bind_inv in E as (limit & σ5 & [El ->]%lift_inv & E).
  apply bind_inv in E as (total & σ6 & [Et ->]%lift_inv & E).
  apply ParseInt_Return in Ep as [_ ->]. apply ParseInt_Return in El as [_ ->].
  unfold awaitCount in Et. destruct (countError Bootcamp); [done|].
  injection Et as <-. injection E as <- <- _. done.
Qed.




End PaginationProperties.

(** ** The response *)

Section ResponseProperties.
Import JS Heap Mongoose Bootcamps.

(** A response of [getBootcamps] comes from a run of [buildQuery] and a
    result of the storage layer, and carries the window's pagination and
    the length of the exported handler. *)
Lemma getBootcamps_inv {document} this (Bootcamp : Model document) req
    (σ : store) r :
  (getBootcamps this Bootcamp req σ).1 = Return r →
  ∃ q w σ' docs,
    buildQuery Bootcamp req σ = (Return (q, w), σ')
    ∧ run Bootcamp q = Return docs
    ∧ r = {| status := 200; success := true; count := getBootcamps_length this;
             pagination := w_pagination w; data := docs |}.
Proof.
  destruct (getBootcamps this Bootcamp req σ) as [o σ''] eqn:E. simpl.
  intros ->. unfold getBootcamps in E.
  apply bind_inv in E as ([q w] & σ' & E1 & E).
  apply bind_inv in E as (docs & σ2 & E2 & E).
  unfold lift in E2. injection E2 as E2 <-.
  injection E as <- _. by exists q, w, σ', docs.
Qed.

(** C5. The total of the pagination block is the size of the whole
    collection, whatever the filter: the pagination of a response is the
    one computed from [page], [limit] and the number of all documents, so
    two requests over one collection with the same [page] and [limit]
    carry the same [next] and [prev], however their filters differ. *)
Theorem pagination_ignores_filter {document} this (Bootcamp : Model document)
    req1 req2 (σ1 σ2 : store) props1 props2 r1 r2 :
  σ1 !! query req1 = Some props1 →
  σ2 !! query req2 = Some props2 →
  get "page" props1 = get "page" props2 →
  get "limit" props1 = get "limit" props2 →
  (getBootcamps this Bootcamp req1 σ1).1 = Return r1 →
  (getBootcamps this Bootcamp req2 σ2).1 = Return r2 →
  pagination r1
  = w_pagination (buildPagination (get "page" props1) (get "limit" props1)
                    (Z.of_nat (length (documents Bootcamp))))
  ∧ pagination r1 = pagination r2.
Proof.
  intros H1 H2 Hp Hl E1 E2.
  apply getBootcamps_inv in E1 as (q1 & w1 & σ1' & d1 & B1 & _ & ->).
  apply getBootcamps_inv in E2 as (q2 & w2 & σ2' & d2 & B2 & _ & ->).
  destruct (buildQuery_inv _ _ _ _ _ _ _ H1 B1) as (-> & _).
  destruct (buildQuery_inv _ _ _ _ _ _ _ H2 B2) as (-> & _).
  simpl. by rewrite Hp, Hl.
Qed.

Lemma pagination_ignores_filter_witness :
  let this := {| getBootcamps_length := 3 |} in
  ∃ r1 r2,
    (getBootcamps this Samples.threeDocuments Samples.request1
       (Samples.storeOf Samples.firstOfAll)).1 = Return r1
    ∧ (getBootcamps this Samples.threeDocuments Samples.request1
         (Samples.storeOf Samples.firstOfNamed)).1 = Return r2
    ∧ data r1 = [0; 1; 2]%nat ∧ data r2 = [0%nat]
    ∧ countDocuments Samples.threeDocuments (Some (VObj [("name", VStr "x")])) = 1
    ∧ next (pagination r2) = Some {| page := 2; limit := 1 |}
    ∧ pagination r1 = pagination r2.
Proof.
  cbv zeta. eexists. eexists.
  split; [reflexivity|]. split; [reflexivity|].
  split; [reflexivity|]. split; [reflexivity|].
  split; [reflexivity|]. split; [reflexivity|].
  refine (proj2 (pagination_ignores_filter {| getBootcamps_length := 3 |}
                   Samples.threeDocuments Samples.request1 Samples.request1
                   (Samples.storeOf Samples.firstOfAll)
                   (Samples.storeOf Samples.firstOfNamed)
                   Samples.firstOfAll Samples.firstOfNamed _ _ _ _ _ _ _ _));
    reflexivity.
Defined.

(** C6. The [count] of a response is the length of the exported handler,
    [this.getBootcamps.length], whatever the query yields; for some
    result it differs from the number of documents in [data]. *)
Theorem count_is_handler_length this :
  (∀ document (Bootcamp : Model document) req (σ : store) r,
     (getBootcamps this Bootcamp req σ).1 = Return r →
     count r = getBootcamps_length this)
  ∧ (∃ (Bootcamp : Model unit) req (σ : store) r,
       (getBootcamps this Bootcamp req σ).1 = Return r
       ∧ count r ≠ Z.of_nat (length (data r))).
Proof.
  split.
  - intros document Bootcamp req σ r E.
    by apply getBootcamps_inv in E as (q & w & σ' & docs & _ & _ & ->).
  - destruct this as [n]. destruct (decide (n = 0)) as [->|Hn].
    + exists (Samples.yielding [tt]), Samples.request1, (Samples.storeOf []).
      eexists. split; [reflexivity|]. simpl. lia.
    + exists (Samples.yielding []), Samples.request1, (Samples.storeOf []).
      eexists. split; [reflexivity|]. simpl. lia.
Qed.

Lemma count_is_handler_length_witness :
  ∃ r,
    (getBootcamps {| getBootcamps_length := 3 |} Samples.threeDocuments
       Samples.request1 (Samples.storeOf Samples.firstOfNamed)).1 = Return r
    ∧ data r = [0%nat] ∧ count r = 3.
Proof.
  eexists. split; [reflexivity|]. split; [reflexivity|].
  refine (proj1 (count_is_handler_length {| getBootcamps_length := 3 |})
            nat Samples.threeDocuments Samples.request1
            (Samples.storeOf Samples.firstOfNamed) _ _).
  reflexivity.
Defined.

End ResponseProperties.

(** ** The sort *)

Section SortProperties.
Import JS Heap Mongoose Bootcamps.

Lemma join_cons sep c p r :
  Str.join sep (String c p :: r) = String c (Str.join sep (p :: r)).
Proof. by destruct r. Qed.

Lemma join_empty_cons sep p r :
  Str.join (String sep "") ("" :: p :: r) = String sep (Str.join (String sep "") (p :: r)).
Proof. reflexivity. Qed.

Lemma split_nonempty sep s : Str.split sep s ≠ [].
Proof.
  destruct s as [|c t]; simpl; [done|].
  destruct (Ascii.eqb c sep); [done|]. by destruct (Str.split sep t).
Qed.

Lemma split_at_sep sep t : Str.split sep (String sep t) = "" :: Str.split sep t.
Proof. simpl. by rewrite Ascii.eqb_refl. Qed.

Lemma split_past c sep t :
  Ascii.eqb c sep = false →
  Str.split sep (String c t)
  = match Str.split sep t with
    | piece :: r => String c piece :: r
    | [] => [String c ""]
    end.
Proof. intros H. simpl. by rewrite H. Qed.

(** Joining with spaces what was split at commas and splitting it again at
    spaces gives the comma-separated tokens back, in their order, when no
    token holds a space. *)
Lemma split_join_split s :
  Str.contains " " s = false →
  Str.split " " (Str.join " " (Str.split "," s)) = Str.split "," s.
Proof.
  induction s as [|c t IH]; [done|].
  intros H. apply orb_false_iff in H as [Hc Ht]. specialize (IH Ht).
  destruct (Ascii.eqb c ",") eqn:Ec.
  - apply Ascii.eqb_eq in Ec as ->. rewrite split_at_sep.
    destruct (Str.split "," t) as [|p r] eqn:E; [by apply split_nonempty in E|].
    by rewrite join_empty_cons, split_at_sep, IH.
  - rewrite (split_past _ _ _ Ec).
    destruct (Str.split "," t) as [|p r] eqn:E; [by apply split_nonempty in E|].
    by rewrite join_cons, (split_past _ _ _ Hc), IH.
Qed.

(** C7. Without a [sort] parameter the query is sorted by ["-createdAt"],
    which the storage layer reads as the single entry [createdAt],
    descending.  With a [sort] parameter the comma-separated tokens are
    handed over separated by spaces, in their order; the storage layer
    reads them back in that order, the first one first, so
    ["name,-rating"] sorts by [name] ascending and then by [rating]
    descending. *)
Theorem buildSort_order req q (σ : store) props :
  σ !! query req = Some props →
  (get "sort" props = None →
     buildSort req q σ = (Return (sort "-createdAt" q), σ)
     ∧ sortSpec "-createdAt" = [("createdAt", Descending)])
  ∧ (∀ s, get "sort" props = Some (VStr s) → s ≠ "" →
       buildSort req q σ = (Return (sort (Str.join " " (Str.split "," s)) q), σ)
       ∧ (Str.contains " " s = false →
          sortSpec (Str.join " " (Str.split "," s))
          = map sortEntry
              (List.filter (λ t, negb (String.eqb t "")) (Str.split "," s))))
  ∧ (get "sort" props = Some (VStr "name,-rating") →
       ∃ q', buildSort req q σ = (Return q', σ)
             ∧ sortSpec <$> sorted q'
               = Some [("name", Ascending); ("rating", Descending)]).
Proof.
  intros H. split; [|split].
  - intros Hs. split; [|reflexivity]. unfold buildSort.
    rewrite (bind_return _ _ _ _ _ (getProp_run _ "sort" _ _ H)). by rewrite Hs.
  - intros s Hs Hne. split.
    + unfold buildSort.
      rewrite (bind_return _ _ _ _ _ (getProp_run _ "sort" _ _ H)). rewrite Hs.
      by destruct s.
    + intros Hsp. unfold sortSpec. by rewrite split_join_split.
  - intros Hs. eexists. split.
    + unfold buildSort.
      rewrite (bind_return _ _ _ _ _ (getProp_run _ "sort" _ _ H)). rewrite Hs.
      reflexivity.
    + reflexivity.
Qed.

Lemma buildSort_order_witness :
  buildSort Samples.request1 (find (VObj [])) (Samples.storeOf Samples.fullQuery)
  = (Return (sort "name -rating" (find (VObj []))), Samples.storeOf Samples.fullQuery)
  ∧ buildSort Samples.request1 (find (VObj [])) (Samples.storeOf Samples.firstOfAll)
    = (Return (sort "-createdAt" (find (VObj []))), Samples.storeOf Samples.firstOfAll).
Proof.
  split.
  - refine (proj1 (proj1 (proj2 (buildSort_order Samples.request1 (find (VObj []))
                             (Samples.storeOf Samples.fullQuery) Samples.fullQuery _))
                     "name,-rating" _ _)); [reflexivity|reflexivity|discriminate].
  - refine (proj1 (proj1 (buildSort_order Samples.request1 (find (VObj []))
                             (Samples.storeOf Samples.firstOfAll) Samples.firstOfAll _)
                     _)); reflexivity.
Defined.

End SortProperties.

(** ** The photo upload *)

Section UploadProperties.
Import JS Heap Mongoose Bootcamps.
Context {document : Type}.
Variable ToNumber : string → option Z.
Variable ext : string → string.

(** C10. The checks come in a fixed order: a bootcamp that is not found
    answers 404 whatever the rest of the request; then a request without
    files answers 400; then a file whose type does not start with
    [image] answers 400; then a file larger than [MAX_FILE_UPLOAD]
    answers 400.  In each of these cases, and whenever the answer is an
    error of status 404 or 400, no file has been moved and no photo field
    updated; when every check passes the file is moved. *)
Theorem upload_checks env (Bootcamp : Model document) mvError req :
  let result := bootcampPhotoUpload ToNumber ext env Bootcamp mvError req in
  (findById Bootcamp (params_id req) = None →
     result = ([], Next {| message := "Bootcamp not found with id of "
                                       +:+ params_id req;
                           statusCode := 404 |}))
  ∧ (∀ b, findById Bootcamp (params_id req) = Some b →
       files req = None →
       result = ([], Next {| message := "Please upload a file"; statusCode := 400 |}))
  ∧ (∀ b fs file,
       findById Bootcamp (params_id req) = Some b →
       files req = Some fs → fileField fs = Some file →
       Str.startsWith (mimetype file) "image" = false →
       result = ([], Next {| message := "Please upload an image file";
                             statusCode := 400 |}))
  ∧ (∀ b fs file limit n,
       findById Bootcamp (params_id req) = Some b →
       files req = Some fs → fileField fs = Some file →
       Str.startsWith (mimetype file) "image" = true →
       MAX_FILE_UPLOAD env = Some limit → ToNumber limit = Some n →
       size file > n →
       result = ([], Next {| message := "Please upload an image less than " +:+ limit;
                             statusCode := 400 |}))
  ∧ (∀ effects e,
       result = (effects, Next e) →
       statusCode e = 404 ∨ statusCode e = 400 → effects = [])
  ∧ (∀ b fs file,
       findById Bootcamp (params_id req) = Some b →
       files req = Some fs → fileField fs = Some file →
       Str.startsWith (mimetype file) "image" = true →
       exceeds ToNumber (size file) (MAX_FILE_UPLOAD env) = false →
       ∃ path rest, result.1 = Mv path :: rest).
Proof.
  cbv zeta. unfold bootcampPhotoUpload.
  split; [|split; [|split; [|split; [|split]]]].
  - by intros ->.
  - by intros b -> ->.
  - by intros b fs file -> -> -> ->.
  - intros b fs file limit n -> -> -> -> Hm Hn Hsize. simpl.
    unfold exceeds. rewrite Hm. simpl. rewrite Hn.
    destruct (Z.gtb_spec (size file) n); [done|lia].
  - intros effects e.
    destruct (findById Bootcamp (params_id req)) as [b|]; [|by intros [= <- _]].
    destruct (files req) as [fs|]; [|by intros [= <- _]].
    destruct (fileField fs) as [file|]; [|done].
    destruct (negb _); [by intros [= <- _]|].
    destruct (exceeds _ _ _); [by intros [= <- _]|].
    destruct mvError; [by intros [= <- <-]; simpl; intros [|]|].
    by destruct (updateError _ _ _).
  - intros b fs file -> -> -> -> ->. simpl.
    destruct mvError; [eauto|]. destruct (updateError _ _ _); eauto.
Qed.

End UploadProperties.

Section UploadExample.
Import JS Heap Mongoose Bootcamps.

Lemma upload_checks_witness :
  bootcampPhotoUpload parseIntString (λ _, ".txt") Samples.environment
    Samples.threeDocuments None Samples.textUpload
  = ([], Next {| message := "Please upload an image file"; statusCode := 400 |}).
Proof.
  refine (proj1 (proj2 (proj2 (upload_checks parseIntString (λ _, ".txt")
                                 Samples.environment Samples.threeDocuments None
                                 Samples.textUpload)))
            0%nat _ _ _ _ _ _); reflexivity.
Defined.

End UploadExample.

(** ** The operator rewrite *)

Section RewriteFacts.
Import RegExp Words Bootcamps.

Lemma app_cons c s t : String c s +:+ t = String c (s +:+ t).
Proof. reflexivity. Qed.

Lemma app_nil_l t : "" +:+ t = t.
Proof. reflexivity. Qed.

Lemma app_nil_r s : s +:+ "" = s.
Proof. induction s as [|c s IH]; [done|]. by rewrite app_cons, IH. Qed.

Lemma app_assoc_s s t u : (s +:+ t) +:+ u = s +:+ (t +:+ u).
Proof. induction s as [|c s IH]; [done|]. by rewrite !app_cons, IH. Qed.

Lemma length_app_s s t : String.length (s +:+ t) = (String.length s + String.length t)%nat.
Proof. induction s as [|c s IH]; [done|]. rewrite app_cons. simpl. by rewrite IH. Qed.

Lemma take_app_s s t : Str.take (String.length s) (s +:+ t) = s.
Proof. induction s as [|c s IH]; [by destruct t|]. rewrite app_cons. simpl. by rewrite IH. Qed.

Lemma stripPrefix_app w rest : Str.stripPrefix w (w +:+ rest) = Some rest.
Proof.
  induction w as [|c w IH]; [by destruct rest|].
  rewrite app_cons. simpl. by rewrite Ascii.eqb_refl.
Qed.

Lemma lastOr_word prev w :
  w ≠ "" → allWord w = true → isWord (Str.lastOr prev w) = true.
Proof.
  revert prev. induction w as [|c w IH]; intros prev Hne Hw; [done|].
  simpl in *. apply andb_true_iff in Hw as [Hc Hw].
  destruct w as [|d w]; [done|]. by apply IH.
Qed.

(** The pattern matches where there is a boundary and one of the
    alternatives, tried in order, is followed by a boundary. *)
Lemma matchAt_operatorPattern prev s :
  matchAt operatorPattern prev s
  = if atBoundary prev s then firstMatch prev operators s else None.
Proof.
  cbv beta iota zeta delta [matchAt operatorPattern exec].
  destruct (atBoundary prev s); [|done].
  cbv beta iota delta [firstMatch operators tryLit].
  repeat match goal with
         | |- context [Str.stripPrefix ?op s] => destruct (Str.stripPrefix op s)
         | |- context [atBoundary ?p ?r] => destruct (atBoundary p r)
         end; reflexivity.
Qed.

Lemma operators_word : Forall (λ op, op ≠ "" ∧ allWord op = true) operators.
Proof. unfold operators. repeat (apply Forall_cons; split; [done|]). apply Forall_nil_2. Qed.

(** A literal of word characters that matches at the start of a maximal
    word and is followed by a boundary is the whole word. *)
Lemma maximal_word op w rest rest' prev :
  op ≠ "" → allWord op = true → allWord w = true → isWord (head rest) = false →
  Str.stripPrefix op (w +:+ rest) = Some rest' →
  atBoundary (Str.lastOr prev op) rest' = true →
  op = w ∧ rest' = rest.
Proof.
  revert w prev. induction op as [|c op IH]; intros w prev Hne Hop Hw Hr Hs Hb; [done|].
  simpl in Hop. apply andb_true_iff in Hop as [Hc Hop].
  destruct w as [|c' w].
  - rewrite app_nil_l in Hs. destruct rest as [|b rest0]; [done|]. simpl in Hs.
    destruct (Ascii.eqb c b) eqn:E; [|done]. apply Ascii.eqb_eq in E as <-.
    simpl in Hr. congruence.
  - rewrite app_cons in Hs. simpl in Hs, Hw.
    apply andb_true_iff in Hw as [Hc' Hw].
    destruct (Ascii.eqb c c') eqn:E; [|done]. apply Ascii.eqb_eq in E as <-.
    destruct op as [|d op].
    + simpl in Hs. injection Hs as <-. simpl in Hb.
      unfold atBoundary in Hb. simpl in Hb. rewrite Hc in Hb.
      destruct w as [|e w]; [done|].
      rewrite app_cons in Hb. simpl in Hb, Hw.
      apply andb_true_iff in Hw as [He _]. by rewrite He in Hb.
    + destruct (IH w (Some c)) as [-> ->]; done.
Qed.

Lemma tryLit_nonword prev s op :
  op ≠ "" → allWord op = true → isWord (head s) = false → tryLit prev s op = None.
Proof.
  intros Hne Hop Hs. unfold tryLit. destruct op as [|c op]; [done|].
  destruct s as [|b s]; [done|]. simpl in *.
  apply andb_true_iff in Hop as [Hc _].
  destruct (Ascii.eqb c b) eqn:E; [|done]. apply Ascii.eqb_eq in E as <-. congruence.
Qed.

Lemma firstMatch_nonword prev ops s :
  Forall (λ op, op ≠ "" ∧ allWord op = true) ops →
  isWord (head s) = false → firstMatch prev ops s = None.
Proof.
  intros Hops Hs. induction Hops as [|op ops [Hne Hop] _ IH]; [done|].
  simpl. by rewrite tryLit_nonword.
Qed.

(** At the start of a maximal word the alternatives match exactly when the
    word is one of them, and then they match the whole word. *)
Lemma firstMatch_word prev ops w rest :
  Forall (λ op, op ≠ "" ∧ allWord op = true) ops →
  w ≠ "" → allWord w = true → isWord (head rest) = false →
  firstMatch prev ops (w +:+ rest)
  = if existsb (String.eqb w) ops then Some rest else None.
Proof.
  intros Hops Hne Hw Hr. induction Hops as [|op ops [Hone Hop] _ IH]; [done|].
  simpl. destruct (tryLit prev (w +:+ rest) op) as [r|] eqn:E.
  - unfold tryLit in E.
    destruct (Str.stripPrefix op (w +:+ rest)) as [r'|] eqn:Es; [|done].
    destruct (atBoundary (Str.lastOr prev op) r') eqn:Eb; [|done].
    injection E as ->.
    destruct (maximal_word _ _ _ _ _ Hone Hop Hw Hr Es Eb) as [-> ->].
    by rewrite String.eqb_refl.
  - destruct (String.eqb w op) eqn:Eq; [|exact IH].
    apply String.eqb_eq in Eq as <-. unfold tryLit in E.
    rewrite stripPrefix_app in E. unfold atBoundary in E.
    by rewrite (lastOr_word prev w Hne Hw), Hr in E.
Qed.

Lemma replaceFrom_skip r f prev u rest :
  replaceFrom r f prev (String.length u) (u +:+ rest)
  = replaceFrom r f (Str.lastOr prev u) 0 rest.
Proof.
  revert prev. induction u as [|c u IH]; intros prev; [done|].
  rewrite app_cons. simpl. apply IH.
Qed.

Lemma replaceFrom_cons r f prev c t :
  replaceFrom r f prev 0 (String c t)
  = match matchAt r prev (String c t) with
    | Some rest =>
        let m := Str.take (String.length (String c t) - String.length rest) (String c t) in
        f m +:+ match String.length m with
                | O => String c (replaceFrom r f (Some c) 0 t)
                | S n => replaceFrom r f (Some c) n t
                end
    | None => String c (replaceFrom r f (Some c) 0 t)
    end.
Proof. reflexivity. Qed.

Abbreviation scan := (replaceFrom operatorPattern prefixDollar).

Lemma scan_nil prev : scan prev 0%nat "" = "".
Proof.
  change (scan prev 0%nat "")
    with (match matchAt operatorPattern prev "" with
          | Some rest => prefixDollar (Str.take (String.length "" - String.length rest) "") +:+ ""
          | None => ""
          end).
  rewrite matchAt_operatorPattern.
  rewrite (firstMatch_nonword prev operators "" operators_word) by done.
  by destruct (atBoundary prev "").
Qed.

(** A character that is not a word character is copied. *)
Lemma scan_nonword prev c t :
  Str.isWordChar c = false → scan prev 0%nat (String c t) = String c (scan (Some c) 0%nat t).
Proof.
  intros Hc. rewrite replaceFrom_cons, matchAt_operatorPattern.
  rewrite (firstMatch_nonword prev operators _ operators_word) by done.
  by destruct (atBoundary prev (String c t)).
Qed.

(** Word characters that follow a word character are copied. *)
Lemma scan_inside prev w rest :
  isWord prev = true → allWord w = true →
  scan prev 0%nat (w +:+ rest) = w +:+ scan (Str.lastOr prev w) 0%nat rest.
Proof.
  revert prev. induction w as [|c w IH]; intros prev Hp Hw; [done|].
  simpl in Hw. apply andb_true_iff in Hw as [Hc Hw].
  rewrite !app_cons, replaceFrom_cons, matchAt_operatorPattern.
  unfold atBoundary. simpl. rewrite Hp, Hc. simpl. f_equal. by apply IH.
Qed.

(** A maximal word that starts at a boundary is rewritten as a whole. *)
Lemma scan_word prev w rest :
  isWord prev = false → w ≠ "" → allWord w = true → isWord (head rest) = false →
  scan prev 0%nat (w +:+ rest) = rewriteRun w +:+ scan (Str.lastOr prev w) 0%nat rest.
Proof.
  intros Hp Hne Hw Hr. destruct w as [|c w]; [done|].
  pose proof Hw as Hw'. simpl in Hw'. apply andb_true_iff in Hw' as [Hc Hw'].
  rewrite app_cons, replaceFrom_cons, matchAt_operatorPattern.
  unfold atBoundary at 1. simpl isWord. rewrite Hp, Hc. simpl xorb. cbv iota.
  rewrite <- app_cons.
  rewrite (firstMatch_word prev operators _ rest operators_word Hne Hw Hr).
  unfold rewriteRun, isOperator.
  destruct (existsb (String.eqb (String c w)) operators).
  - cbv zeta. rewrite length_app_s.
    replace (String.length (String c w) + String.length rest - String.length rest)%nat
      with (String.length (String c w)) by lia.
    rewrite take_app_s. simpl String.length. cbv iota.
    rewrite replaceFrom_skip. unfold prefixDollar. simpl Str.lastOr.
    by rewrite app_assoc_s.
  - rewrite app_cons. f_equal.
    change (Str.lastOr prev (String c w)) with (Str.lastOr (Some c) w).
    by apply scan_inside.
Qed.

(** *** The runs of a text *)

Lemma runs_head s r rs : runs s = r :: rs → r ≠ "" ∧ head r = head s.
Proof.
  destruct s as [|c t]; [done|]. simpl.
  destruct (runs t) as [|r' rs']; [by intros [= <- _]|].
  destruct (sameClass c r'); by intros [= <- _].
Qed.

Lemma isOperator_word r : isOperator r = true → isWord (head r) = true.
Proof.
  unfold isOperator. rewrite existsb_exists. intros (op & Hin & Heq).
  apply String.eqb_eq in Heq as <-.
  pose proof operators_word as H. rewrite Forall_forall in H.
  destruct (H r (proj2 (list_elem_of_In _ _) Hin)) as [Hne Hw].
  destruct r as [|c r]; [done|]. simpl in *. by apply andb_true_iff in Hw as [-> _].
Qed.

Lemma rewriteRun_nonword r : isWord (head r) = false → rewriteRun r = r.
Proof.
  intros H. unfold rewriteRun. destruct (isOperator r) eqn:E; [|done].
  apply isOperator_word in E. congruence.
Qed.

Lemma rewriteWords_nonword c t :
  Str.isWordChar c = false → rewriteWords (String c t) = String c (rewriteWords t).
Proof.
  intros Hc. unfold rewriteWords. simpl runs.
  destruct (runs t) as [|r rs] eqn:E.
  - simpl. by rewrite rewriteRun_nonword.
  - destruct (sameClass c r) eqn:Es.
    + destruct r as [|d r]; [done|]. simpl in Es.
      rewrite Hc in Es. destruct (Str.isWordChar d) eqn:Ed; [done|].
      simpl. by rewrite !rewriteRun_nonword.
    + simpl. by rewrite (rewriteRun_nonword (String c "")).
Qed.

Lemma runs_word w rest :
  w ≠ "" → allWord w = true → isWord (head rest) = false →
  runs (w +:+ rest) = w :: runs rest.
Proof.
  intros Hne Hw Hr. induction w as [|c w IH]; [done|].
  simpl in Hw. apply andb_true_iff in Hw as [Hc Hw].
  rewrite app_cons. simpl. destruct w as [|d w].
  - rewrite app_nil_l. destruct (runs rest) as [|r rs] eqn:E; [done|].
    destruct (runs_head _ _ _ E) as [Hrne Hh].
    destruct r as [|e r]; [done|]. simpl. rewrite Hc.
    rewrite <- Hh in Hr. simpl in Hr. by rewrite Hr.
  - rewrite IH by done. simpl. rewrite Hc.
    simpl in Hw. apply andb_true_iff in Hw as [-> _]. done.
Qed.

Lemma rewriteWords_word w rest :
  w ≠ "" → allWord w = true → isWord (head rest) = false →
  rewriteWords (w +:+ rest) = rewriteRun w +:+ rewriteWords rest.
Proof. intros. unfold rewriteWords. by rewrite runs_word. Qed.

Lemma wordPrefix_spec s :
  s = wordPrefix s +:+ wordRest s
  ∧ allWord (wordPrefix s) = true
  ∧ isWord (head (wordRest s)) = false
  ∧ (String.length (wordRest s) ≤ String.length s)%nat.
Proof.
  induction s as [|c t (IH1 & IH2 & IH3 & IH4)]; [done|]. simpl.
  destruct (Str.isWordChar c) eqn:Ec.
  - rewrite app_cons, <- IH1. simpl. rewrite Ec. repeat split; auto.
  - simpl. rewrite Ec. done.
Qed.

(** The scan and the rewrite of runs agree wherever the scan stands at
    the start of a run. *)
Lemma scan_rewriteWords n : ∀ s prev,
  (String.length s ≤ n)%nat →
  isWord prev = false ∨ isWord (head s) = false →
  scan prev 0%nat s = rewriteWords s.
Proof.
  induction n as [|n IH]; intros s prev Hlen Hstart.
  - destruct s; [apply scan_nil|simpl in Hlen; lia].
  - destruct s as [|c t]; [apply scan_nil|]. simpl in Hlen.
    destruct (Str.isWordChar c) eqn:Ec.
    + destruct Hstart as [Hp|Hh]; [|simpl in Hh; congruence].
      destruct (wordPrefix_spec (String c t)) as (Hs & Hw & Hr & Hl).
      assert (Hne : wordPrefix (String c t) ≠ "") by (simpl; by rewrite Ec).
      assert (Hlt : (String.length (wordRest (String c t)) ≤ n)%nat).
      { simpl. rewrite Ec. destruct (wordPrefix_spec t) as (_ & _ & _ & Ht). lia. }
      rewrite Hs at 1 2.
      rewrite scan_word, rewriteWords_word by done.
      f_equal. apply IH; [exact Hlt|by right].
    + rewrite scan_nonword, rewriteWords_nonword by done.
      f_equal. apply IH; [lia|left; exact Ec].
Qed.

End RewriteFacts.


(** ** [JSON.parse] never fails in the handler *)

Section ParseFacts.
Import JS JSON Words Bootcamps RegExp.

(** Induction on values, through the lists they nest. *)
Lemma value_induction (P : value → Prop) :
  (∀ s, P (VStr s)) →
  (∀ items, Forall P items → P (VArr items)) →
  (∀ props, Forall (λ p, P (snd p)) props → P (VObj props)) →
  ∀ v, P v.
Proof.
  intros HS HA HO. fix IH 1. intros [s|items|props].
  - apply HS.
  - apply HA. induction items as [|v items IHl]; constructor; [apply IH|exact IHl].
  - apply HO. induction props as [|[k v] props IHl]; constructor; [apply IH|exact IHl].
Qed.

(** A string literal reads back as the string it was written from. *)
Lemma parseChars_escape s r :
  parseChars (escape s +:+ String Str.dquote r) = Some (s, r).
Proof.
  induction s as [|c s IH]; [reflexivity|].
  change (escape (String c s)) with (escapeChar c +:+ escape s).
  rewrite app_assoc_s. unfold Str.dquote in *.
  destruct c as [[] [] [] [] [] [] [] []];
    cbv beta iota zeta delta -[parseChars escape String.append];
    rewrite ?app_cons, ?app_nil_l;
    cbn [parseChars]; cbv beta iota zeta delta -[parseChars escape String.append];
    rewrite IH; reflexivity.
Qed.

(** *** Dollar signs before [g], [l] and [i] do not break a text *)

Lemma opensOperator_cases c :
  opensOperator c = true → c = "g"%char ∨ c = "l"%char ∨ c = "i"%char.
Proof.
  unfold opensOperator. rewrite !orb_true_iff, !Ascii.eqb_eq. tauto.
Qed.

(** The characters the parser looks for are none of [g], [l] and [i]. *)
Lemma opensOperator_plain c :
  opensOperator c = true →
  hexValue c = None ∧ unescape c = None
  ∧ Ascii.eqb c Str.dquote = false ∧ Ascii.eqb c Str.backslash = false
  ∧ Ascii.eqb c "u" = false ∧ (Str.code c <? 32) = false.
Proof. intros H. destruct (opensOperator_cases c H) as [-> | [-> | ->]]; done. Qed.

Lemma Dollars_nil_inv t' : Dollars "" t' → t' = "".
Proof. by inversion 1. Qed.

Lemma Dollars_copy_inv c t t' :
  opensOperator c = false → Dollars (String c t) t' →
  ∃ t0, t' = String c t0 ∧ Dollars t t0.
Proof. intros Hc HD. inversion HD; subst; [eauto|congruence]. Qed.

Lemma expect_Some c s t : expect c s = Some t → s = String c t.
Proof.
  destruct s as [|d s]; [done|]. simpl.
  destruct (Ascii.eqb d c) eqn:E; [|done]. apply Ascii.eqb_eq in E as ->. by intros [= ->].
Qed.

Lemma expect_Dollars c s s' t :
  Dollars s s' → expect c s = Some t → opensOperator c = false →
  ∃ t', expect c s' = Some t' ∧ Dollars t t'.
Proof.
  intros HD He Hc. apply expect_Some in He as ->.
  destruct (Dollars_copy_inv _ _ _ Hc HD) as (t0 & -> & HD').
  exists t0. simpl. by rewrite Ascii.eqb_refl.
Qed.

Lemma expect_Dollars_None c s s' :
  Dollars s s' → expect c s = None → Ascii.eqb "$" c = false → expect c s' = None.
Proof.
  intros HD He Hc. inversion HD; subst; simpl in *; [done| |by rewrite Hc].
  by destruct (Ascii.eqb _ c).
Qed.

Lemma hexValue_plain c n : hexValue c = Some n → opensOperator c = false.
Proof.
  intros H. destruct (opensOperator c) eqn:E; [|done].
  apply opensOperator_plain in E as (E & _). congruence.
Qed.

Lemma hex4_plain a b c d ch :
  hex4 a b c d = Some ch →
  opensOperator a = false ∧ opensOperator b = false
  ∧ opensOperator c = false ∧ opensOperator d = false.
Proof.
  unfold hex4.
  destruct (hexValue a) eqn:Ea; [|done]. destruct (hexValue b) eqn:Eb; [|done].
  destruct (hexValue c) eqn:Ec; [|done]. destruct (hexValue d) eqn:Ed; [|done].
  intros _. repeat split; eapply hexValue_plain; eassumption.
Qed.

Lemma unescape_plain c ch : unescape c = Some ch → opensOperator c = false.
Proof.
  intros H. destruct (opensOperator c) eqn:E; [|done].
  apply opensOperator_plain in E as (_ & E & _). congruence.
Qed.

Lemma parseChars_Dollars n : ∀ e e' s r,
  (String.length e ≤ n)%nat → Dollars e e' → parseChars e = Some (s, r) →
  ∃ s' r', parseChars e' = Some (s', r') ∧ Dollars r r'.
Proof.
  induction n as [|n IH]; intros e e' s r Hlen HD HP.
  { destruct e; [done|simpl in Hlen; lia]. }
  destruct e as [|c t]; [done|]. simpl in Hlen.
  inversion HD as [|c0 t0 t' HD'|c0 t0 t' Hop HD']; subst.
  - simpl in HP |- *.
    destruct (Ascii.eqb c Str.dquote). { injection HP as <- <-. eauto. }
    destruct (Ascii.eqb c Str.backslash).
    { destruct t as [|x t1]; [done|].
      destruct (Ascii.eqb x "u") eqn:Eu.
      - apply Ascii.eqb_eq in Eu as ->.
        destruct t1 as [|h1 [|h2 [|h3 [|h4 t2]]]]; try done.
        destruct (hex4 h1 h2 h3 h4) as [ch|] eqn:Eh; [|done]. simpl in HP.
        destruct (parseChars t2) as [[str rest]|] eqn:E2; [|done].
        simpl in HP. injection HP as <- <-.
        destruct (hex4_plain _ _ _ _ _ Eh) as (H1 & H2 & H3 & H4).
        destruct (Dollars_copy_inv "u" _ _ eq_refl HD') as (u1 & -> & D1).
        destruct (Dollars_copy_inv _ _ _ H1 D1) as (u2 & -> & D2).
        destruct (Dollars_copy_inv _ _ _ H2 D2) as (u3 & -> & D3).
        destruct (Dollars_copy_inv _ _ _ H3 D3) as (u4 & -> & D4).
        destruct (Dollars_copy_inv _ _ _ H4 D4) as (u5 & -> & D5).
        destruct (IH t2 u5 str rest) as (s' & r' & -> & Dr); [simpl in Hlen; lia|done|done|].
        simpl. rewrite Eh. simpl. eauto.
      - destruct (unescape x) as [ch|] eqn:Ex; [|done]. simpl in HP.
        destruct (parseChars t1) as [[str rest]|] eqn:E1; [|done].
        simpl in HP. injection HP as <- <-.
        destruct (Dollars_copy_inv _ _ _ (unescape_plain _ _ Ex) HD') as (u1 & -> & D1).
        destruct (IH t1 u1 str rest) as (s' & r' & -> & Dr); [simpl in Hlen; lia|done|done|].
        rewrite Eu, Ex. simpl. eauto. }
    destruct (Str.code c <? 32); [done|].
    destruct (parseChars t) as [[str rest]|] eqn:E1; [|done].
    simpl in HP. injection HP as <- <-.
    destruct (IH t t' str rest) as (s' & r' & -> & Dr); [lia|done|done|].
    simpl. eauto.
  - destruct (opensOperator_plain _ Hop) as (_ & _ & Hq & Hb & _ & Hlt).
    simpl in HP. rewrite Hq, Hb, Hlt in HP.
    destruct (parseChars t) as [[str rest]|] eqn:E1; [|done].
    simpl in HP. injection HP as <- <-.
    destruct (IH t t' str rest) as (s' & r' & E' & Dr); [lia|done|done|].
    exists (String "$" (String c s')), r'. split; [|done].
    change (parseChars (String "$" (String c t')))
      with ('(str, rest) ← parseChars (String c t'); Some (String "$" str, rest)).
    simpl. rewrite Hq, Hb, Hlt, E'. done.
Qed.

Lemma parseValue_S fuel s :
  parseValue (S fuel) s
  = match expect Str.dquote s with
    | Some t => '(str, rest) ← parseChars t; Some (VStr str, rest)
    | None =>
    match expect "[" s with
    | Some t =>
        match expect "]" t with
        | Some rest => Some (VArr [], rest)
        | None => '(items, rest) ← parseItems fuel t; Some (VArr items, rest)
        end
    | None =>
    match expect "{" s with
    | Some t =>
        match expect "}" t with
        | Some rest => Some (VObj [], rest)
        | None => '(o, rest) ← parseMembers fuel t []; Some (VObj o, rest)
        end
    | None => None
    end end end.
Proof. reflexivity. Qed.

Lemma parseItems_S fuel s :
  parseItems (S fuel) s
  = '(v, rest) ← parseValue fuel s;
    match expect "," rest with
    | Some rest' => '(vs, rest'') ← parseItems fuel rest'; Some (v :: vs, rest'')
    | None => rest' ← expect "]" rest; Some ([v], rest')
    end.
Proof. reflexivity. Qed.

Lemma parseMembers_S fuel s acc :
  parseMembers (S fuel) s acc
  = t ← expect Str.dquote s;
    '(k, rest) ← parseChars t;
    rest' ← expect ":" rest;
    '(v, rest'') ← parseValue fuel rest';
    match expect "," rest'' with
    | Some r => parseMembers fuel r (define k v acc)
    | None => r ← expect "}" rest''; Some (define k v acc, r)
    end.
Proof. reflexivity. Qed.

(** A text that parses still parses, with the same fuel, once dollar signs
    are put before some of its [g], [l] and [i]. *)
Lemma parse_Dollars fuel :
  (∀ t t' v r, Dollars t t' → parseValue fuel t = Some (v, r) →
     ∃ v' r', parseValue fuel t' = Some (v', r') ∧ Dollars r r')
  ∧ (∀ t t' vs r, Dollars t t' → parseItems fuel t = Some (vs, r) →
       ∃ vs' r', parseItems fuel t' = Some (vs', r') ∧ Dollars r r')
  ∧ (∀ t t' acc acc' o r, Dollars t t' → parseMembers fuel t acc = Some (o, r) →
       ∃ o' r', parseMembers fuel t' acc' = Some (o', r') ∧ Dollars r r').
Proof.
  induction fuel as [|fuel (IHv & IHi & IHm)]; [by repeat split|].
  split; [|split].
  - intros t t' v r HD HP. rewrite parseValue_S in HP |- *.
    destruct (expect Str.dquote t) as [t1|] eqn:Eq.
    { destruct (expect_Dollars _ _ _ _ HD Eq eq_refl) as (t1' & -> & D1).
      destruct (parseChars t1) as [[str rest]|] eqn:Ec; [|done].
      simpl in HP. injection HP as <- <-.
      destruct (parseChars_Dollars _ _ _ _ _ (le_n _) D1 Ec) as (s' & r' & -> & Dr).
      simpl. eauto. }
    rewrite (expect_Dollars_None _ _ _ HD Eq eq_refl).
    destruct (expect "[" t) as [t1|] eqn:Eb.
    { destruct (expect_Dollars _ _ _ _ HD Eb eq_refl) as (t1' & -> & D1).
      destruct (expect "]" t1) as [rest|] eqn:Ee.
      - destruct (expect_Dollars _ _ _ _ D1 Ee eq_refl) as (r' & -> & Dr).
        injection HP as <- <-. eauto.
      - rewrite (expect_Dollars_None _ _ _ D1 Ee eq_refl).
        destruct (parseItems fuel t1) as [[items rest]|] eqn:Ei; [|done].
        simpl in HP. injection HP as <- <-.
        destruct (IHi _ _ _ _ D1 Ei) as (vs' & r' & -> & Dr). simpl. eauto. }
    rewrite (expect_Dollars_None _ _ _ HD Eb eq_refl).
    destruct (expect "{" t) as [t1|] eqn:Eo; [|done].
    destruct (expect_Dollars _ _ _ _ HD Eo eq_refl) as (t1' & -> & D1).
    destruct (expect "}" t1) as [rest|] eqn:Ee.
    + destruct (expect_Dollars _ _ _ _ D1 Ee eq_refl) as (r' & -> & Dr).
      injection HP as <- <-. eauto.
    + rewrite (expect_Dollars_None _ _ _ D1 Ee eq_refl).
      destruct (parseMembers fuel t1 []) as [[o rest]|] eqn:Em; [|done].
      simpl in HP. injection HP as <- <-.
      destruct (IHm _ _ _ [] _ _ D1 Em) as (o' & r' & -> & Dr). simpl. eauto.
  - intros t t' vs r HD HP. rewrite parseItems_S in HP |- *.
    destruct (parseValue fuel t) as [[v rest]|] eqn:Ev; [|done]. simpl in HP.
    destruct (IHv _ _ _ _ HD Ev) as (v' & rest' & -> & D1). simpl.
    destruct (expect "," rest) as [r1|] eqn:Ec.
    + destruct (expect_Dollars _ _ _ _ D1 Ec eq_refl) as (r1' & -> & D2).
      destruct (parseItems fuel r1) as [[vs1 r2]|] eqn:Ei; [|done].
      simpl in HP. injection HP as <- <-.
      destruct (IHi _ _ _ _ D2 Ei) as (vs' & r' & -> & Dr). simpl. eauto.
    + rewrite (expect_Dollars_None _ _ _ D1 Ec eq_refl).
      destruct (expect "]" rest) as [r1|] eqn:Ee; [|done].
      simpl in HP. injection HP as <- <-.
      destruct (expect_Dollars _ _ _ _ D1 Ee eq_refl) as (r' & -> & Dr). simpl. eauto.
  - intros t t' acc acc' o r HD HP. rewrite parseMembers_S in HP |- *.
    destruct (expect Str.dquote t) as [t1|] eqn:Eq; [|done]. simpl in HP.
    destruct (expect_Dollars _ _ _ _ HD Eq eq_refl) as (t1' & -> & D1). simpl.
    destruct (parseChars t1) as [[k rest]|] eqn:Ek; [|done]. simpl in HP.
    destruct (parseChars_Dollars _ _ _ _ _ (le_n _) D1 Ek) as (k' & rest' & -> & D2).
    simpl.
    destruct (expect ":" rest) as [r1|] eqn:Ec; [|done]. simpl in HP.
    destruct (expect_Dollars _ _ _ _ D2 Ec eq_refl) as (r1' & -> & D3). simpl.
    destruct (parseValue fuel r1) as [[v r2]|] eqn:Ev; [|done]. simpl in HP.
    destruct (IHv _ _ _ _ D3 Ev) as (v' & r2' & -> & D4). simpl.
    destruct (expect "," r2) as [r3|] eqn:Em.
    + destruct (expect_Dollars _ _ _ _ D4 Em eq_refl) as (r3' & -> & D5).
      apply (IHm _ _ _ (define k' v' acc') _ _ D5 HP).
    + rewrite (expect_Dollars_None _ _ _ D4 Em eq_refl).
      destruct (expect "}" r2) as [r3|] eqn:Ee; [|done].
      simpl in HP. injection HP as <- <-.
      destruct (expect_Dollars _ _ _ _ D4 Ee eq_refl) as (r' & -> & Dr). simpl. eauto.
Qed.

(** *** The rewrite only puts dollar signs before [g], [l] and [i] *)

Lemma stripPrefix_Some p s rest : Str.stripPrefix p s = Some rest → s = p +:+ rest.
Proof.
  revert s. induction p as [|a p IH]; intros s; simpl.
  - by intros [= <-].
  - destruct s as [|b s]; [done|]. destruct (Ascii.eqb a b) eqn:E; [|done].
    apply Ascii.eqb_eq in E as ->. intros H. by rewrite (IH _ H).
Qed.

Lemma firstMatch_Some prev ops s rest :
  firstMatch prev ops s = Some rest → ∃ op, op ∈ ops ∧ s = op +:+ rest.
Proof.
  induction ops as [|op ops IH]; [done|]. simpl.
  destruct (tryLit prev s op) as [r|] eqn:E.
  - intros [= ->]. exists op. split; [left|]. unfold tryLit in E.
    destruct (Str.stripPrefix op s) as [r|] eqn:Es; [|done].
    destruct (atBoundary _ r); [|done]. injection E as ->.
    by apply stripPrefix_Some.
  - intros H. destruct (IH H) as (op' & Hin & Hs). exists op'. split; [by right|done].
Qed.

Lemma operators_open op :
  op ∈ operators → ∃ c op', op = String c op' ∧ opensOperator c = true.
Proof.
  unfold operators. set_unfold. intros [->|[->|[->|[->|[->|[]]]]]]; by eexists _, _.
Qed.

Lemma Dollars_app w t t' : Dollars t t' → Dollars (w +:+ t) (w +:+ t').
Proof. intros H. induction w as [|c w IH]; [done|]. rewrite !app_cons. by constructor. Qed.

Lemma Dollars_length t t' : Dollars t t' → (String.length t ≤ String.length t')%nat.
Proof. induction 1; simpl; lia. Qed.

Lemma Dollars_scan n : ∀ s prev,
  (String.length s ≤ n)%nat →
  Dollars s (replaceFrom operatorPattern prefixDollar prev 0 s).
Proof.
  induction n as [|n IH]; intros s prev Hlen.
  { destruct s; [rewrite scan_nil; constructor|simpl in Hlen; lia]. }
  destruct s as [|c t]; [rewrite scan_nil; constructor|]. simpl in Hlen.
  rewrite replaceFrom_cons, matchAt_operatorPattern.
  assert (Hcopy : Dollars (String c t)
                    (String c (replaceFrom operatorPattern prefixDollar (Some c) 0 t))).
  { constructor. apply IH. lia. }
  destruct (atBoundary prev (String c t)); [|exact Hcopy].
  destruct (firstMatch prev operators (String c t)) as [rest|] eqn:E; [|exact Hcopy].
  apply firstMatch_Some in E as (op & Hin & Hs).
  destruct (operators_open _ Hin) as (d & op' & -> & Hd).
  rewrite app_cons in Hs. injection Hs as -> ->.
  cbv zeta. rewrite <- app_cons, length_app_s.
  replace (String.length (String d op') + String.length rest - String.length rest)%nat
    with (String.length (String d op')) by lia.
  rewrite take_app_s. simpl String.length. cbv iota.
  rewrite replaceFrom_skip. unfold prefixDollar.
  rewrite !app_cons, ?app_nil_l, ?app_cons.
  apply Dollars_insert; [done|]. apply Dollars_app, IH.
  rewrite length_app_s in Hlen. lia.
Qed.

(** *** A serialized value parses *)

Lemma stringify_VArr items :
  stringify (VArr items) = "[" +:+ Str.join "," (map stringify items) +:+ "]".
Proof. reflexivity. Qed.

Lemma stringify_VObj props :
  stringify (VObj props) = "{" +:+ Str.join "," (map member props) +:+ "}".
Proof. reflexivity. Qed.

Lemma stringify_head v r :
  expect "]" (stringify v +:+ r) = None
  ∧ expect "}" (stringify v +:+ r) = None
  ∧ expect "," (stringify v +:+ r) = None.
Proof. by destruct v. Qed.

Lemma member_head p r : expect "}" (member p +:+ r) = None.
Proof. done. Qed.

Lemma join_cons_cons sep x y l :
  Str.join sep (x :: y :: l) = x +:+ sep +:+ Str.join sep (y :: l).
Proof. reflexivity. Qed.

Lemma parseItems_stringify items :
  items ≠ [] → Forall parsesBack items →
  ∀ r fuel, (list_sum (map (λ v, S (weight v)) items) ≤ fuel)%nat →
    ∃ vs, parseItems fuel (Str.join "," (map stringify items) +:+ String "]" r)
          = Some (vs, r).
Proof.
  intros Hne Hall. induction Hall as [|v items Hv Hall IH]; [done|].
  intros r fuel Hfuel. rewrite map_cons in Hfuel. simpl list_sum in Hfuel.
  destruct fuel as [|fuel]; [lia|]. rewrite parseItems_S.
  destruct items as [|v2 items].
  - simpl. destruct (Hv (String "]" r) fuel) as (v' & ->); [lia|].
    simpl. by eexists.
  - rewrite map_cons, (map_cons _ v2), join_cons_cons, !app_assoc_s.
    rewrite <- (map_cons stringify v2).
    destruct (IH ltac:(done) r fuel) as (vs & E); [lia|].
    remember (Str.join "," (map stringify (v2 :: items)) +:+ String "]" r) as tail.
    destruct (Hv ("," +:+ tail) fuel) as (v' & ->); [lia|].
    change ("," +:+ tail) with (String "," tail). simpl. rewrite E. simpl. by eexists.
Qed.

Lemma parseMembers_member fuel k v tail acc v' :
  parseValue fuel (stringify v +:+ tail) = Some (v', tail) →
  parseMembers (S fuel) (member (k, v) +:+ tail) acc
  = match expect "," tail with
    | Some r => parseMembers fuel r (define k v' acc)
    | None => r ← expect "}" tail; Some (define k v' acc, r)
    end.
Proof.
  intros E. rewrite parseMembers_S. unfold member. simpl fst. simpl snd. unfold quote.
  repeat (rewrite app_assoc_s || rewrite app_cons || rewrite app_nil_l).
  simpl expect. cbv iota.
  change (Some ?x ≫= ?f) with (f x). cbv beta.
  rewrite parseChars_escape.
  change (Some ?x ≫= ?f) with (f x). cbv beta iota.
  simpl expect. cbv iota. change (Some ?x ≫= ?f) with (f x). cbv beta.
  rewrite E. reflexivity.
Qed.

Lemma parseMembers_stringify props :
  props ≠ [] → Forall (λ p, parsesBack (snd p)) props →
  ∀ acc r fuel, (list_sum (map (λ p, S (weight (snd p))) props) ≤ fuel)%nat →
    ∃ o, parseMembers fuel (Str.join "," (map member props) +:+ String "}" r) acc
         = Some (o, r).
Proof.
  intros Hne Hall. induction Hall as [|[k v] props Hv Hall IH]; [done|].
  intros acc r fuel Hfuel. rewrite map_cons in Hfuel. simpl list_sum in Hfuel.
  simpl snd in Hfuel, Hv.
  destruct fuel as [|fuel]; [lia|].
  destruct props as [|p2 props].
  - destruct (Hv (String "}" r) fuel) as (v' & E); [lia|].
    change (Str.join "," (map member [(k, v)])) with (member (k, v)).
    rewrite (parseMembers_member _ _ _ _ _ _ E). simpl. by eexists.
  - rewrite map_cons, (map_cons _ p2), join_cons_cons, !app_assoc_s.
    rewrite <- (map_cons member p2).
    remember (Str.join "," (map member (p2 :: props)) +:+ String "}" r) as tail.
    destruct (Hv ("," +:+ tail) fuel) as (v' & E); [lia|].
    rewrite (parseMembers_member _ _ _ _ _ _ E).
    change ("," +:+ tail) with (String "," tail). simpl. subst tail.
    apply IH; [done|lia].
Qed.

Lemma parseValue_string fuel t :
  parseValue (S fuel) (String Str.dquote t)
  = '(str, rest) ← parseChars t; Some (VStr str, rest).
Proof. reflexivity. Qed.

Lemma parseValue_array fuel t :
  parseValue (S fuel) (String "[" t)
  = match expect "]" t with
    | Some rest => Some (VArr [], rest)
    | None => '(items, rest) ← parseItems fuel t; Some (VArr items, rest)
    end.
Proof. reflexivity. Qed.

Lemma parseValue_object fuel t :
  parseValue (S fuel) (String "{" t)
  = match expect "}" t with
    | Some rest => Some (VObj [], rest)
    | None => '(o, rest) ← parseMembers fuel t []; Some (VObj o, rest)
    end.
Proof. reflexivity. Qed.

Ltac flatten_app :=
  repeat (rewrite app_assoc_s || rewrite app_cons || rewrite app_nil_l).

Lemma stringify_parsesBack v : parsesBack v.
Proof.
  induction v as [s|items IH|props IH] using value_induction;
    intros r fuel Hfuel; simpl in Hfuel;
    (destruct fuel as [|fuel]; [lia|]).
  - change (stringify (VStr s)) with (quote s). unfold quote. flatten_app.
    rewrite parseValue_string, parseChars_escape. simpl. by eexists.
  - destruct items as [|v items]; [simpl; by eexists|].
    rewrite stringify_VArr. flatten_app. rewrite parseValue_array.
    assert (expect "]" (Str.join "," (map stringify (v :: items)) +:+ String "]" r) = None)
      as ->.
    { rewrite map_cons. destruct (map stringify items).
      - apply stringify_head.
      - rewrite join_cons_cons, !app_assoc_s. apply stringify_head. }
    destruct (parseItems_stringify (v :: items) ltac:(done) IH r fuel) as (vs & ->);
      [lia|].
    simpl. by eexists.
  - destruct props as [|p props]; [simpl; by eexists|].
    rewrite stringify_VObj. flatten_app. rewrite parseValue_object.
    assert (expect "}" (Str.join "," (map member (p :: props)) +:+ String "}" r) = None)
      as ->.
    { rewrite map_cons. destruct (map member props).
      - apply member_head.
      - rewrite join_cons_cons, !app_assoc_s. apply member_head. }
    destruct (parseMembers_stringify (p :: props) ltac:(done) IH [] r fuel) as (o & ->);
      [lia|].
    simpl. by eexists.
Qed.

(** *** The fuel of [JSON.parse] is enough *)

Lemma list_sum_le {A} (f g : A → nat) l :
  Forall (λ x, (f x ≤ g x)%nat) l → (list_sum (map f l) ≤ list_sum (map g l))%nat.
Proof. induction 1; simpl; lia. Qed.

Lemma join_length l :
  (list_sum (map (λ x, S (String.length x)) l) ≤ S (String.length (Str.join "," l)))%nat.
Proof.
  induction l as [|x l IH]; [simpl; lia|].
  destruct l as [|y l]; [simpl; lia|].
  rewrite join_cons_cons, map_cons, !length_app_s. simpl in *. lia.
Qed.

Lemma weight_length v : (weight v ≤ String.length (stringify v))%nat.
Proof.
  induction v as [s|items IH|props IH] using value_induction.
  - simpl. lia.
  - rewrite stringify_VArr, !length_app_s. simpl.
    pose proof (join_length (map stringify items)) as Hj.
    rewrite map_map in Hj.
    pose proof (list_sum_le (λ v, S (weight v)) (λ v, S (String.length (stringify v)))
                  items) as Hs.
    assert (Forall (λ x, (S (weight x) ≤ S (String.length (stringify x)))%nat) items) as Hall.
    { eapply Forall_impl; [exact IH|]. simpl. intros. lia. }
    specialize (Hs Hall). lia.
  - rewrite stringify_VObj, !length_app_s. simpl.
    pose proof (join_length (map member props)) as Hj.
    rewrite map_map in Hj.
    pose proof (list_sum_le (λ p, S (weight (snd p))) (λ p, S (String.length (member p)))
                  props) as Hs.
    assert (Forall (λ p, (S (weight (snd p)) ≤ S (String.length (member p)))%nat) props)
      as Hall.
    { eapply Forall_impl; [exact IH|]. simpl. intros p Hp. unfold member.
      rewrite !length_app_s. lia. }
    specialize (Hs Hall). lia.
Qed.

(** The text of a filter always parses: [JSON.parse] does not throw in
    [buildFilter]. *)
Lemma parse_filterText o : is_Some (JSON.parse (filterText o)).
Proof.
  unfold filterText, RegExp.replace.
  set (v := VObj (strip o)). set (text := stringify v).
  set (text' := replaceFrom operatorPattern prefixDollar None 0 text).
  assert (HD : Dollars text text') by (apply (Dollars_scan (String.length text)); done).
  pose proof (Dollars_length _ _ HD) as Hlen.
  pose proof (weight_length v) as Hw. fold text in Hw.
  destruct (stringify_parsesBack v "" (S (2 * String.length text'))) as (v0 & E); [lia|].
  fold text in E. rewrite app_nil_r in E.
  destruct (proj1 (parse_Dollars _) _ _ _ _ HD E) as (v' & r' & E' & Dr).
  apply Dollars_nil_inv in Dr as ->.
  unfold JSON.parse. rewrite E'. by eexists.
Qed.

End ParseFacts.

Section RewriteProperties.
Import JS Heap Mongoose Bootcamps Words.

(** C1. The rewrite of line 26 puts a dollar sign before every whole-word,
    case-sensitive occurrence of [gt], [gte], [lt], [lte] and [in] in the
    serialized query that is left once the reserved keys are removed, and
    changes nothing else: the filter [buildFilter] returns is what
    [JSON.parse] reads from the rewrite, run by run, of that serialization.
    The substitution is blind to the structure of the text: for the query
    [?name=in] the field value [in] becomes [$in] in the filter. *)
Theorem operator_rewrite :
  (∀ s, RegExp.replace operatorPattern prefixDollar s = rewriteWords s)
  ∧ (∀ req (σ : store) props,
       σ !! query req = Some props →
       ∃ filter,
         JSON.parse (rewriteWords (JSON.stringify (VObj (strip props)))) = Some filter
         ∧ (buildFilter req σ).1 = Return filter)
  ∧ rewriteWords "gt gte lt lte in GT gtx _gt ingt" = "$gt $gte $lt $lte $in GT gtx _gt ingt"
  ∧ (buildFilter Samples.request1 (Samples.storeOf Samples.namedIn)).1
    = Return (VObj [("name", VStr "$in")]).
Proof.
  assert (R : ∀ s, RegExp.replace operatorPattern prefixDollar s = rewriteWords s).
  { intros s. unfold RegExp.replace.
    apply (scan_rewriteWords (String.length s)); [done|by left]. }
  split; [exact R|]. split; [|split; reflexivity].
  intros req σ props H. rewrite (buildFilter_run _ _ _ H). simpl.
  destruct (parse_filterText props) as [filter E]. exists filter.
  unfold filterText in E. rewrite R in E. split; [exact E|].
  unfold filterText. by rewrite R, E.
Qed.

Lemma operator_rewrite_witness :
  ∃ filter,
    JSON.parse (rewriteWords (JSON.stringify (VObj (strip Samples.fullQuery))))
    = Some filter
    ∧ (buildFilter Samples.request1 (Samples.storeOf Samples.fullQuery)).1
      = Return filter
    ∧ filter = VObj [("price", VObj [("$gte", VStr "10")]); ("name", VStr "$in")].
Proof.
  destruct (proj1 (proj2 operator_rewrite) Samples.request1
              (Samples.storeOf Samples.fullQuery) Samples.fullQuery eq_refl)
    as (filter & E1 & E2).
  exists filter. split; [exact E1|]. split; [exact E2|].
  vm_compute in E1. by injection E1 as <-.
Defined.

End RewriteProperties.

Section Totality.
Import JS Heap Mongoose Bootcamps Params.

(** The run of [buildFilter] on a query that exists, now that the text is
    known to parse. *)
Lemma buildFilter_Return req (σ : store) props :
  σ !! query req = Some props →
  ∃ filter,
    JSON.parse (filterText props) = Some filter
    ∧ buildFilter req σ = (Return filter, <[fresh (dom σ) := strip props]> σ).
Proof.
  intros H. destruct (parse_filterText props) as [filter E]. exists filter.
  split; [exact E|]. by rewrite (buildFilter_run _ _ _ H), E.
Qed.

Lemma buildProjection_run req q (σ : store) props :
  σ !! query req = Some props →
  buildProjection req q σ
  = (if truthy (get "select" props)
     then match get "select" props with
          | Some (VStr s) => Return (select (Str.join " " (Str.split "," s)) q)
          | _ => Throw (TypeError "req.query.select.split is not a function")
          end
     else Return q, σ).
Proof.
  intros H. unfold buildProjection.
  rewrite (bind_return _ _ _ _ _ (getProp_run _ "select" _ _ H)).
  destruct (get "select" props) as [[s| |]|]; try done. by destruct s.
Qed.

Lemma buildSort_run req q (σ : store) props :
  σ !! query req = Some props →
  buildSort req q σ
  = (if truthy (get "sort" props)
     then match get "sort" props with
          | Some (VStr s) => Return (sort (Str.join " " (Str.split "," s)) q)
          | _ => Throw (TypeError "req.query.sort.split is not a function")
          end
     else Return (sort "-createdAt" q), σ).
Proof.
  intros H. unfold buildSort.
  rewrite (bind_return _ _ _ _ _ (getProp_run _ "sort" _ _ H)).
  destruct (get "sort" props) as [[s| |]|]; try done. by destruct s.
Qed.

(** [s.split(',').join(' ')] puts a space where a comma was and changes
    nothing else. *)
Lemma join_split_commas s : Str.join " " (Str.split "," s) = commasToSpaces s.
Proof.
  induction s as [|c t IH]; [done|].
  unfold commasToSpaces in *. simpl mapChars.
  destruct (Ascii.eqb c ",") eqn:Ec.
  - apply Ascii.eqb_eq in Ec as ->. rewrite split_at_sep.
    destruct (Str.split "," t) as [|p r] eqn:E; [by apply split_nonempty in E|].
    by rewrite join_empty_cons, IH.
  - rewrite (split_past _ _ _ Ec).
    destruct (Str.split "," t) as [|p r] eqn:E; [by apply split_nonempty in E|].
    by rewrite join_cons, IH.
Qed.

Lemma stringOrMissing_dec v : stringOrMissing v ∨ ¬ stringOrMissing v.
Proof.
  destruct v as [[s| |]|]; [left; right; by exists s| | |left; by left];
    right; intros [|[s ?]]; done.
Qed.

Lemma buildProjection_Return req q (σ : store) props :
  σ !! query req = Some props →
  stringOrMissing (get "select" props) →
  buildProjection req q σ
  = (Return match projectionOf props with Some fields => select fields q | None => q end,
     σ).
Proof.
  intros H Hsel. rewrite (buildProjection_run _ _ _ _ H). unfold projectionOf.
  destruct Hsel as [->|[s ->]]; [done|]. destruct s; [done|].
  by rewrite <- join_split_commas.
Qed.

Lemma buildProjection_Throw req q (σ : store) props :
  σ !! query req = Some props →
  ¬ stringOrMissing (get "select" props) →
  buildProjection req q σ
  = (Throw (TypeError "req.query.select.split is not a function"), σ).
Proof.
  intros H Hsel. rewrite (buildProjection_run _ _ _ _ H).
  destruct (get "select" props) as [[s| |]|]; try done.
  - destruct Hsel. right. by exists s.
  - destruct Hsel. by left.
Qed.

Lemma buildSort_Return req q (σ : store) props :
  σ !! query req = Some props →
  stringOrMissing (get "sort" props) →
  buildSort req q σ = (Return (sort (sortOf props) q), σ).
Proof.
  intros H Hsort. rewrite (buildSort_run _ _ _ _ H). unfold sortOf.
  destruct Hsort as [->|[s ->]]; [done|]. destruct s; [done|].
  by rewrite <- join_split_commas.
Qed.

Lemma buildSort_Throw req q (σ : store) props :
  σ !! query req = Some props →
  ¬ stringOrMissing (get "sort" props) →
  buildSort req q σ = (Throw (TypeError "req.query.sort.split is not a function"), σ).
Proof.
  intros H Hsort. rewrite (buildSort_run _ _ _ _ H).
  destruct (get "sort" props) as [[s| |]|]; try done.
  - destruct Hsort. right. by exists s.
  - destruct Hsort. by left.
Qed.

(** What [buildQuery] answers on a query that exists, case by case, in
    the order in which the handler can stop. *)
Lemma buildQuery_cases {document} (Bootcamp : Model document) req (σ : store) props :
  σ !! query req = Some props →
  ∃ filter,
    JSON.parse (filterText props) = Some filter
    ∧ ((¬ stringOrMissing (get "select" props)
        ∧ (buildQuery Bootcamp req σ).1
          = Throw (TypeError "req.query.select.split is not a function"))
       ∨ (stringOrMissing (get "select" props)
          ∧ ((¬ stringOrMissing (get "sort" props)
              ∧ (buildQuery Bootcamp req σ).1
                = Throw (TypeError "req.query.sort.split is not a function"))
             ∨ (stringOrMissing (get "sort" props)
                ∧ ((convertibleParam (get "page" props) = false
                    ∧ (buildQuery Bootcamp req σ).1
                      = Throw (TypeError "Cannot convert object to primitive value"))
                   ∨ (convertibleParam (get "page" props) = true
                      ∧ ((convertibleParam (get "limit" props) = false
                          ∧ (buildQuery Bootcamp req σ).1
                            = Throw (TypeError "Cannot convert object to primitive value"))
                         ∨ (convertibleParam (get "limit" props) = true
                            ∧ ((∃ e, countError Bootcamp = Some e
                                     ∧ (buildQuery Bootcamp req σ).1 = Throw e)
                               ∨ (countError Bootcamp = None
                                  ∧ (buildQuery Bootcamp req σ).1
                                    = (let w := buildPagination (get "page" props)
                                                  (get "limit" props)
                                                  (countDocuments Bootcamp None) in
                                       Return ({| conditions := filter;
                                                  populated := ["courses"];
                                                  selected := projectionOf props;
                                                  sorted := Some (sortOf props);
                                                  skipped := Some (startIndex w);
                                                  limited := Some (w_limit w) |},
                                               w)))))))))))).
Proof.
  intros H. destruct (buildFilter_Return _ _ _ H) as (filter & EP & E).
  exists filter. split; [exact EP|].
  set (σ1 := <[fresh (dom σ) := strip props]> σ) in *.
  assert (H1 : σ1 !! query req = Some props).
  { rewrite <- H. eapply buildFilter_frame; [exact H|exact E|by eexists]. }
  unfold buildQuery. rewrite (bind_return _ _ _ _ _ E). cbv zeta.
  destruct (stringOrMissing_dec (get "select" props)) as [Hsel|Hsel]; [right|left];
    (split; [exact Hsel|]);
    [|by rewrite (bind_throw _ _ _ _ _ (buildProjection_Throw _ _ _ _ H1 Hsel))].
  rewrite (bind_return _ _ _ _ _ (buildProjection_Return _ _ _ _ H1 Hsel)).
  destruct (stringOrMissing_dec (get "sort" props)) as [Hsort|Hsort]; [right|left];
    (split; [exact Hsort|]);
    [|by rewrite (bind_throw _ _ _ _ _ (buildSort_Throw _ _ _ _ H1 Hsort))].
  rewrite (bind_return _ _ _ _ _ (buildSort_Return _ _ _ _ H1 Hsort)).
  rewrite (bind_return _ _ _ _ _ (getProp_run _ "page" _ _ H1)).
  destruct (convertibleParam (get "page" props)) eqn:Cp; [right|left];
    (split; [reflexivity|]);
    [|erewrite bind_throw; [reflexivity|];
      unfold lift, ParseInt, ToString; by rewrite Cp].
  erewrite bind_return; [|unfold lift; by rewrite (ParseInt_convertible _ Cp)].
  rewrite (bind_return _ _ _ _ _ (getProp_run _ "limit" _ _ H1)).
  destruct (convertibleParam (get "limit" props)) eqn:Cl; [right|left];
    (split; [reflexivity|]);
    [|erewrite bind_throw; [reflexivity|];
      unfold lift, ParseInt, ToString; by rewrite Cl].
  erewrite bind_return; [|unfold lift; by rewrite (ParseInt_convertible _ Cl)].
  unfold awaitCount.
  destruct (countError Bootcamp) as [e|]; [left|right].
  - exists e. split; [reflexivity|]. by erewrite bind_throw.
  - split; [reflexivity|]. erewrite bind_return by reflexivity.
    cbv zeta. unfold buildPagination. by destruct (projectionOf props).
Qed.

(** X1. The filter is always built: for every query that exists,
    [JSON.parse] reads the rewritten text and [buildFilter] returns what it
    reads, without throwing. *)
Theorem buildFilter_returns req (σ : store) props :
  σ !! query req = Some props →
  ∃ filter,
    JSON.parse (filterText props) = Some filter
    ∧ (buildFilter req σ).1 = Return filter.
Proof.
  intros H. destruct (buildFilter_Return _ _ _ H) as (filter & E & ->). by exists filter.
Qed.

Lemma buildFilter_returns_witness :
  ∃ filter,
    JSON.parse (filterText Samples.fullQuery) = Some filter
    ∧ (buildFilter Samples.request1 (Samples.storeOf Samples.fullQuery)).1
      = Return filter.
Proof.
  apply (buildFilter_returns Samples.request1 (Samples.storeOf Samples.fullQuery)
           Samples.fullQuery).
  reflexivity.
Defined.

(** X2. [getBootcamps] responds whenever [select] and [sort] are each a
    string or missing, [page] and [limit] convert to strings, the storage
    layer answers the count, the window is within the safe integers, and
    the storage layer answers the query that the request determines; the
    [data] of the response are the documents it yields. *)
Theorem getBootcamps_responds {document} this (Bootcamp : Model document)
    req (σ : store) props docs :
  σ !! query req = Some props →
  stringOrMissing (get "select" props) →
  stringOrMissing (get "sort" props) →
  convertibleParam (get "page" props) = true →
  convertibleParam (get "limit" props) = true →
  countError Bootcamp = None →
  exactWindow (buildPagination (get "page" props) (get "limit" props)
                 (countDocuments Bootcamp None)) →
  (∀ filter,
     JSON.parse (filterText props) = Some filter →
     let w := buildPagination (get "page" props) (get "limit" props)
                (countDocuments Bootcamp None) in
     run Bootcamp {| conditions := filter;
                     populated := ["courses"];
                     selected := projectionOf props;
                     sorted := Some (sortOf props);
                     skipped := Some (startIndex w);
                     limited := Some (w_limit w) |} = Return docs) →
  ∃ r, (getBootcamps this Bootcamp req σ).1 = Return r ∧ data r = docs.
Proof.
  intros H Hsel Hsort Cp Cl Hc _ Hrun.
  destruct (buildQuery_cases Bootcamp _ _ _ H) as (filter & EP & Hcases).
  specialize (Hrun filter EP). cbv zeta in Hrun.
  destruct Hcases as [[? _]|[_ [[? _]|[_ [[? _]|[_ [[? _]|[_ [(e & ? & _)|[_ B]]]]]]]]]];
    try congruence.
  cbv zeta in B.
  destruct (buildQuery Bootcamp req σ) as [o σ1] eqn:EB. cbn [fst] in B. subst o.
  unfold getBootcamps. rewrite (bind_return _ _ _ _ _ EB). cbv beta iota.
  erewrite bind_return; [|unfold lift; by rewrite Hrun]. by eexists.
Qed.

Lemma getBootcamps_responds_witness :
  ∃ r, (getBootcamps {| getBootcamps_length := 3 |} Samples.threeDocuments
          Samples.request1 (Samples.storeOf Samples.fullQuery)).1 = Return r
       ∧ data r = [0%nat].
Proof.
  apply (getBootcamps_responds {| getBootcamps_length := 3 |} Samples.threeDocuments
           Samples.request1 (Samples.storeOf Samples.fullQuery) Samples.fullQuery
           [0%nat]).
  - reflexivity.
  - right. by eexists.
  - right. by eexists.
  - reflexivity.
  - reflexivity.
  - reflexivity.
  - unfold exactWindow, safeInteger. repeat split; vm_compute; intros Hgt; discriminate Hgt.
  - intros filter EP. vm_compute in EP. injection EP as <-. reflexivity.
Defined.

(** X3. A [select] parameter that is an array or an object (as
    [?select=a&select=b] gives) makes the handler throw a [TypeError]: the
    value is truthy and has no [split]. *)
Theorem getBootcamps_select_not_a_string {document} this (Bootcamp : Model document)
    req (σ : store) props v :
  σ !! query req = Some props →
  get "select" props = Some v →
  (∀ s, v ≠ VStr s) →
  (getBootcamps this Bootcamp req σ).1
  = Throw (TypeError "req.query.select.split is not a function").
Proof.
  intros H Hsel Hv.
  destruct (buildFilter_Return _ _ _ H) as (filter & _ & E).
  set (σ1 := <[fresh (dom σ) := strip props]> σ) in E.
  assert (H1 : σ1 !! query req = Some props).
  { rewrite <- H. eapply buildFilter_frame; [exact H|exact E|by eexists]. }
  unfold getBootcamps, buildQuery.
  erewrite bind_throw; [done|].
  rewrite (bind_return _ _ _ _ _ E).
  erewrite bind_throw; [done|].
  rewrite (buildProjection_run _ _ _ _ H1), Hsel.
  destruct v as [s| |]; [by destruct (Hv s)|done|done].
Qed.

Lemma getBootcamps_select_not_a_string_witness :
  (getBootcamps {| getBootcamps_length := 3 |} Samples.threeDocuments
     Samples.request1 (Samples.storeOf Samples.selectTwice)).1
  = Throw (TypeError "req.query.select.split is not a function").
Proof.
  apply (getBootcamps_select_not_a_string {| getBootcamps_length := 3 |}
           Samples.threeDocuments Samples.request1
           (Samples.storeOf Samples.selectTwice) Samples.selectTwice
           (VArr [VStr "name"; VStr "email"])).
  - reflexivity.
  - reflexivity.
  - discriminate.
Defined.

End Totality.

(** ** The reserved parameters and the filter *)

Section ReservedProperties.
Import JS Heap Mongoose Bootcamps Params.

Lemma filter_twice {A} (f g : A → bool) l :
  List.filter g (List.filter f l) = List.filter (λ x, f x && g x) l.
Proof.
  induction l as [|x l IH]; [done|]. simpl.
  destruct (f x); simpl; [destruct (g x)|]; by rewrite IH.
Qed.

(** Deleting the reserved keys one after the other keeps every other
    property, with its value and in its place. *)
Lemma strip_nonReserved o : strip o = nonReserved o.
Proof.
  unfold strip, nonReserved, removeFields, remove. simpl.
  rewrite !filter_twice. apply filter_ext. intros [k v]. simpl.
  unfold isReserved, removeFields. simpl.
  destruct (String.eqb k "select"), (String.eqb k "sort"),
    (String.eqb k "page"), (String.eqb k "limit"); reflexivity.
Qed.

(** X4. The filter does not depend on the reserved parameters: the
    deletions leave exactly the properties whose key is none of [select],
    [sort], [page] and [limit], and two requests whose queries agree on
    those properties get the same filter, whatever their reserved
    parameters hold. *)
Theorem filter_ignores_reserved req1 req2 (σ1 σ2 : store) props1 props2 :
  σ1 !! query req1 = Some props1 →
  σ2 !! query req2 = Some props2 →
  nonReserved props1 = nonReserved props2 →
  strip props1 = nonReserved props1
  ∧ (buildFilter req1 σ1).1 = (buildFilter req2 σ2).1.
Proof.
  intros H1 H2 E. split; [apply strip_nonReserved|].
  rewrite (buildFilter_run _ _ _ H1), (buildFilter_run _ _ _ H2).
  unfold filterText. by rewrite !strip_nonReserved, E.
Qed.

Lemma filter_ignores_reserved_witness :
  (buildFilter Samples.request1 (Samples.storeOf Samples.fullQuery)).1
  = (buildFilter Samples.request1
       (Samples.storeOf [("price", VObj [("gte", VStr "10")]);
                         ("sort", VArr []); ("name", VStr "in")])).1.
Proof.
  refine (proj2 (filter_ignores_reserved Samples.request1 Samples.request1
                   (Samples.storeOf Samples.fullQuery) _ Samples.fullQuery _ _ _ _));
    reflexivity.
Defined.

End ReservedProperties.

(** ** The query handed to the storage layer *)

Section QueryProperties.
Import JS Heap Mongoose Bootcamps Params.

(** X5. The query that is awaited is fully determined by the request: its
    filter is what [JSON.parse] reads from the rewritten text, it
    populates [courses], it is projected on the [select] string with
    every comma replaced by a space when [select] is a non-empty string
    and not projected otherwise (an empty [select] counts as absent), it
    is sorted by the [sort] string with commas replaced by spaces, or by
    ["-createdAt"] when [sort] is absent or empty, and it skips
    [startIndex] documents and is limited to [limit]. *)
Theorem query_handed_over {document} (Bootcamp : Model document) req
    (σ σ' : store) props q w :
  σ !! query req = Some props →
  buildQuery Bootcamp req σ = (Return (q, w), σ') →
  ∃ filter,
    JSON.parse (filterText props) = Some filter
    ∧ q = {| conditions := filter;
             populated := ["courses"];
             selected := projectionOf props;
             sorted := Some (sortOf props);
             skipped := Some (startIndex w);
             limited := Some (w_limit w) |}.
Proof.
  intros H E. destruct (buildQuery_cases Bootcamp _ _ _ H) as (filter & EP & Hcases).
  exists filter. split; [exact EP|]. rewrite E in Hcases. cbn [fst] in Hcases.
  destruct Hcases as [[_ ?]|[_ [[_ ?]|[_ [[_ ?]|[_ [[_ ?]|[_ [(e & _ & ?)|[_ B]]]]]]]]]];
    try done.
  cbv zeta in B. by injection B as -> ->.
Qed.

Lemma query_handed_over_witness :
  ∃ q w σ',
    buildQuery Samples.threeDocuments Samples.request1
      (Samples.storeOf Samples.fullQuery) = (Return (q, w), σ')
    ∧ selected q = Some "name email" ∧ sorted q = Some "name -rating"
    ∧ conditions q = VObj [("price", VObj [("$gte", VStr "10")]); ("name", VStr "$in")].
Proof.
  destruct (buildQuery Samples.threeDocuments Samples.request1
              (Samples.storeOf Samples.fullQuery)) as [[[q w]|e] σ'] eqn:E;
    [|vm_compute in E; discriminate E].
  exists q, w, σ'. split; [reflexivity|].
  destruct (query_handed_over Samples.threeDocuments Samples.request1
              (Samples.storeOf Samples.fullQuery) σ' Samples.fullQuery q w
              eq_refl E) as (filter & EP & ->).
  vm_compute in EP. injection EP as <-. repeat split.
Defined.



End QueryProperties.

(** ** Pages and their links *)

Section LinkProperties.
Import JS Heap Mongoose Bootcamps Params.

Ltac safe_window :=
  unfold exactWindow, safeInteger; repeat split; vm_compute; intros Hgt; discriminate Hgt.

(** X7. For a positive page and limit that convert to strings and a
    window within the safe integers, where the arithmetic of the language
    is exact, the window holds [limit] positions and starts at or after
    0, and the links lead to the neighbouring windows: the request a
    [next] link describes has the same limit, starts where this window
    ends and carries a [prev] link back to this page; the request a
    [prev] link describes ends where this window starts, and carries a
    [next] link back to this page exactly when the collection reaches
    this window. *)
Theorem pagination_links rawPage rawLimit total :
  let w := buildPagination rawPage rawLimit total in
  convertibleParam rawPage = true → convertibleParam rawLimit = true →
  exactWindow w →
  0 < w_page w → 0 < w_limit w →
  endIndex w = startIndex w + w_limit w
  ∧ 0 ≤ startIndex w
  ∧ (∀ n rawPage' rawLimit' total',
       next (w_pagination w) = Some n →
       ParseInt rawPage' = Return (Some (page n)) →
       ParseInt rawLimit' = Return (Some (limit n)) →
       safeInteger total' →
       let w' := buildPagination rawPage' rawLimit' total' in
       w_limit w' = w_limit w
       ∧ startIndex w' = endIndex w
       ∧ prev (w_pagination w') = Some {| page := w_page w; limit := w_limit w |})
  ∧ (∀ n rawPage' rawLimit' total',
       prev (w_pagination w) = Some n →
       ParseInt rawPage' = Return (Some (page n)) →
       ParseInt rawLimit' = Return (Some (limit n)) →
       safeInteger total' →
       let w' := buildPagination rawPage' rawLimit' total' in
       w_limit w' = w_limit w
       ∧ endIndex w' = startIndex w
       ∧ (next (w_pagination w') = Some {| page := w_page w; limit := w_limit w |}
          ↔ startIndex w < total')).
Proof.
  cbv zeta. intros _ _ _. unfold buildPagination. simpl.
  set (p := orElse (parseInt rawPage) 1). set (l := orElse (parseInt rawLimit) 25).
  intros Hp Hl. split; [lia|]. split; [nia|]. split.
  - intros n rawPage' rawLimit' total' Hn [_ Ep]%ParseInt_Return [_ El]%ParseInt_Return _.
    destruct (p * l <? total); [|done]. injection Hn as <-. simpl in Ep, El.
    rewrite <- Ep, <- El, !orElse_nonzero by lia.
    split; [done|]. split; [lia|].
    destruct (Z.gtb_spec ((p + 1 - 1) * l) 0); [|nia].
    do 2 f_equal. lia.
  - intros n rawPage' rawLimit' total' Hn [_ Ep]%ParseInt_Return [_ El]%ParseInt_Return _.
    destruct (Z.gtb_spec ((p - 1) * l) 0); [|done]. injection Hn as <-. simpl in Ep, El.
    assert (1 < p) by nia.
    rewrite <- Ep, <- El, !orElse_nonzero by lia.
    split; [done|]. split; [done|].
    destruct (Z.ltb_spec ((p - 1) * l) total'); split; try done; try lia.
    intros _. do 2 f_equal. lia.
Qed.

Lemma pagination_links_witness :
  let w := buildPagination (Some (VStr "2")) (Some (VStr "10")) 25 in
  let w' := buildPagination (Some (VStr "3")) (Some (VStr "10")) 25 in
  next (w_pagination w) = Some {| page := 3; limit := 10 |}
  ∧ startIndex w' = endIndex w
  ∧ prev (w_pagination w') = Some {| page := 2; limit := 10 |}.
Proof.
  cbv zeta. split; [reflexivity|].
  destruct (pagination_links (Some (VStr "2")) (Some (VStr "10")) 25
              eq_refl eq_refl ltac:(safe_window)
              ltac:(reflexivity) ltac:(reflexivity)) as (_ & _ & H & _).
  destruct (H {| page := 3; limit := 10 |} (Some (VStr "3")) (Some (VStr "10")) 25
              eq_refl eq_refl eq_refl
              ltac:(unfold safeInteger; vm_compute; intros Hgt; discriminate Hgt))
    as (_ & H1 & H2).
  split; [exact H1|exact H2].
Defined.

Lemma trimStart_stop s c t :
  isWhiteSpace c = false →
  trimStart (s +:+ String c t)
  = match trimStart s with "" => String c t | r => r +:+ String c t end.
Proof.
  intros Hc. induction s as [|d s IH].
  - rewrite app_nil_l. simpl. by rewrite Hc.
  - rewrite app_cons. simpl. destruct (isWhiteSpace d); [exact IH|].
    by rewrite app_cons.
Qed.

Lemma digits_stop acc s c t :
  Str.isDigit c = false → digits acc (s +:+ String c t) = digits acc s.
Proof.
  intros Hc. revert acc. induction s as [|d s IH]; intros acc.
  - rewrite app_nil_l. simpl. by rewrite Hc.
  - rewrite app_cons. simpl. destruct (Str.isDigit d); [apply IH|done].
Qed.

(** [parseInt] reads no further than a character that is neither a digit,
    nor white space, nor a sign. *)
Lemma parseIntString_stop s c t :
  stopsParseInt c = true → parseIntString (s +:+ String c t) = parseIntString s.
Proof.
  unfold stopsParseInt. rewrite !andb_true_iff, !negb_true_iff.
  intros [[[Hd Hw] Hm] Hp]. unfold parseIntString.
  rewrite (trimStart_stop _ _ _ Hw).
  destruct (trimStart s) as [|d r].
  - rewrite Hm, Hp. simpl. by rewrite Hd.
  - rewrite app_cons.
    destruct (Ascii.eqb d "-"); [by rewrite digits_stop|].
    destruct (Ascii.eqb d "+"); [by rewrite digits_stop|].
    by rewrite <- app_cons, digits_stop.
Qed.

Lemma parseInt_first s rest : parseInt (Some (VArr (VStr s :: rest))) = parseInt (Some (VStr s)).
Proof.
  unfold parseInt. simpl toString. destruct rest as [|v rest]; [done|].
  rewrite map_cons. cbv iota.
  change ("," +:+ ?x) with (String "," x). by apply parseIntString_stop.
Qed.

(** X8. How [page] and [limit] are read when they are not plain numbers.
    [parseInt] stops at the first character that is neither a digit, nor
    white space, nor a sign, so what follows such a character does not
    count ([10px] and [2.9] read as 10 and 2).  A parameter given several
    times arrives as an array: when its values convert to strings, it is
    read as its first value alone, and so is the pagination.  A parameter
    that arrives as a nested object gives the default when the object has
    no property [toString] of its own; when it has one
    ([?page[toString]=1]) [parseInt] throws a [TypeError], and so does
    the handler once [select] and [sort] have passed. *)
Theorem pagination_reads_prefix :
  (∀ s c t, stopsParseInt c = true →
     parseIntString (s +:+ String c t) = parseIntString s)
  ∧ (∀ s rest other total,
       forallb convertible rest = true →
       ParseInt (Some (VArr (VStr s :: rest))) = ParseInt (Some (VStr s))
       ∧ buildPagination (Some (VArr (VStr s :: rest))) other total
         = buildPagination (Some (VStr s)) other total
       ∧ buildPagination other (Some (VArr (VStr s :: rest))) total
         = buildPagination other (Some (VStr s)) total)
  ∧ (∀ o other total,
       hasKey "toString" o = false →
       ParseInt (Some (VObj o)) = Return None
       ∧ buildPagination (Some (VObj o)) other total = buildPagination None other total
       ∧ buildPagination other (Some (VObj o)) total = buildPagination other None total)
  ∧ (∀ o, hasKey "toString" o = true →
       ParseInt (Some (VObj o))
       = Throw (TypeError "Cannot convert object to primitive value"))
  ∧ (∀ document this (Bootcamp : Model document) req (σ : store) props,
       σ !! query req = Some props →
       stringOrMissing (get "select" props) →
       stringOrMissing (get "sort" props) →
       convertibleParam (get "page" props) = false
       ∨ convertibleParam (get "limit" props) = false →
       (getBootcamps this Bootcamp req σ).1
       = Throw (TypeError "Cannot convert object to primitive value")).
Proof.
  split; [exact parseIntString_stop|]. split; [|split; [|split]].
  - intros s rest other total Hrest. split; [|split].
    + unfold ParseInt, ToString. cbn [convertibleParam convertible forallb andb].
      rewrite Hrest. f_equal. apply parseInt_first.
    + unfold buildPagination. by rewrite parseInt_first.
    + unfold buildPagination. by rewrite parseInt_first.
  - intros o other total Ho. split; [|by split].
    unfold ParseInt, ToString. cbn [convertibleParam convertible]. by rewrite Ho.
  - intros o Ho. unfold ParseInt, ToString. cbn [convertibleParam convertible].
    by rewrite Ho.
  - intros document this Bootcamp req σ props H Hsel Hsort Hconv.
    destruct (buildQuery_cases Bootcamp _ _ _ H) as (filter & _ & Hcases).
    unfold getBootcamps, mbind at 1, M_bind at 1, bind.
    destruct (buildQuery Bootcamp req σ) as [o σ1]. cbn [fst] in Hcases.
    destruct Hcases
      as [[? _]|[_ [[? _]|[_ [[_ ->]|[Cp [[_ ->]|[Cl _]]]]]]]]; try done.
    destruct Hconv; congruence.
Qed.

Lemma pagination_reads_prefix_witness :
  parseIntString "10px" = parseIntString "10"
  ∧ parseIntString "2.9" = Some 2
  ∧ (getBootcamps {| getBootcamps_length := 3 |} Samples.threeDocuments Samples.request1
       (Samples.storeOf Cases.pageWithToString)).1
    = Throw (TypeError "Cannot convert object to primitive value").
Proof.
  split; [|split].
  - refine (proj1 pagination_reads_prefix "10" "p"%char "x" _). reflexivity.
  - refine (eq_trans (proj1 pagination_reads_prefix "2" "."%char "9" _) _); reflexivity.
  - refine (proj2 (proj2 (proj2 (proj2 pagination_reads_prefix))) nat _
              Samples.threeDocuments Samples.request1
              (Samples.storeOf Cases.pageWithToString) Cases.pageWithToString
              eq_refl _ _ _).
    + by left.
    + by left.
    + by left.
Defined.

End LinkProperties.

(** ** The outcomes of the photo upload *)

Section UploadOutcomes.
Import JS Heap Mongoose Bootcamps.
Context {document : Type}.
Variable ToNumber : string → option Z.
Variable ext : string → string.

(** X9. The upload answers 200 exactly when the bootcamp is found, a
    file comes under the field [file], its type starts with [image], its
    size does not exceed the limit, the move raises no error and the
    storage layer accepts the update of the photo field.  The answer then
    carries the stored name [photo_<id><ext>], the file has been moved to
    [<FILE_UPLOAD_PATH>/<name>] and the photo field of the bootcamp of
    the request set to that same name, in this order.  The photo field
    is set in no other case.  When the storage layer rejects the update,
    the file has been moved and no answer is sent: the rejection is
    raised in the callback of the move, where nothing handles it.  When
    the move fails the handler has either stopped at a check without any
    effect, or moved the file, logged the error and answered 500. *)
Theorem upload_success env (Bootcamp : Model document) mvError req :
  let result := bootcampPhotoUpload ToNumber ext env Bootcamp mvError req in
  (∀ effects status data,
     result = (effects, Json status data) ↔
     ∃ b fs file,
       findById Bootcamp (params_id req) = Some b
       ∧ files req = Some fs ∧ fileField fs = Some file
       ∧ Str.startsWith (mimetype file) "image" = true
       ∧ exceeds ToNumber (size file) (MAX_FILE_UPLOAD env) = false
       ∧ mvError = None
       ∧ updateError Bootcamp (params_id req) data = None
       ∧ status = 200
       ∧ data = "photo_" +:+ _id Bootcamp b +:+ ext (name file)
       ∧ effects = [Mv (envText (FILE_UPLOAD_PATH env) +:+ "/" +:+ data);
                    FindByIdAndUpdate (params_id req) data])
  ∧ (∀ id photo,
       FindByIdAndUpdate id photo ∈ result.1 →
       id = params_id req ∧ result.2 = Json 200 photo ∧ mvError = None
       ∧ updateError Bootcamp id photo = None)
  ∧ (∀ effects e,
       result = (effects, Unhandled e) ↔
       ∃ b fs file,
         findById Bootcamp (params_id req) = Some b
         ∧ files req = Some fs ∧ fileField fs = Some file
         ∧ Str.startsWith (mimetype file) "image" = true
         ∧ exceeds ToNumber (size file) (MAX_FILE_UPLOAD env) = false
         ∧ mvError = None
         ∧ updateError Bootcamp (params_id req)
             ("photo_" +:+ _id Bootcamp b +:+ ext (name file)) = Some e
         ∧ effects = [Mv (envText (FILE_UPLOAD_PATH env) +:+ "/" +:+ "photo_"
                          +:+ _id Bootcamp b +:+ ext (name file))])
  ∧ (∀ err, mvError = Some err →
       result.1 = []
       ∨ ∃ path, result = ([Mv path; ConsoleError err],
                           Next {| message := "Problem with file upload";
                                   statusCode := 500 |})).
Proof.
  cbv zeta. unfold bootcampPhotoUpload. split; [|split; [|split]].
  - intros effects status data. split.
    + destruct (findById Bootcamp (params_id req)) as [b|]; [|done].
      destruct (files req) as [fs|]; [|done].
      destruct (fileField fs) as [file|] eqn:Ef; [|done].
      destruct (Str.startsWith (mimetype file) "image") eqn:Ei; [|done].
      destruct (exceeds _ _ _) eqn:Ee; [done|].
      destruct mvError; [done|]. cbv zeta.
      destruct (updateError _ _ _) eqn:Eu; [done|]. intros [= <- <- <-].
      exists b, fs, file. repeat split; done.
    + intros (b & fs & file & -> & -> & -> & -> & -> & -> & Eu & -> & -> & ->).
      cbv zeta. simpl negb. cbv iota. by rewrite Eu.
  - intros id photo.
    destruct (findById Bootcamp (params_id req)) as [b|]; [|by intros ?%elem_of_nil].
    destruct (files req) as [fs|]; [|by intros ?%elem_of_nil].
    destruct (fileField fs) as [file|]; [|by intros ?%elem_of_nil].
    destruct (negb _); [by intros ?%elem_of_nil|].
    destruct (exceeds _ _ _); [by intros ?%elem_of_nil|].
    destruct mvError; cbv zeta.
    { simpl. set_unfold. intros [?|[?|[]]]; done. }
    destruct (updateError _ _ _) eqn:Eu; simpl; set_unfold.
    + intros [?|[]]; done.
    + intros [?|[?|[]]]; [done|]. by simplify_eq.
  - intros effects e. split.
    + destruct (findById Bootcamp (params_id req)) as [b|]; [|done].
      destruct (files req) as [fs|]; [|done].
      destruct (fileField fs) as [file|] eqn:Ef; [|done].
      destruct (Str.startsWith (mimetype file) "image") eqn:Ei; [|done].
      destruct (exceeds _ _ _) eqn:Ee; [done|].
      destruct mvError; [done|]. cbv zeta.
      destruct (updateError _ _ _) eqn:Eu; [|done]. intros [= <- <-].
      exists b, fs, file. repeat split; done.
    + intros (b & fs & file & -> & -> & -> & -> & -> & -> & Eu & ->).
      cbv zeta. simpl negb. cbv iota. by rewrite Eu.
  - intros err ->.
    destruct (findById Bootcamp (params_id req)) as [b|]; [|by left].
    destruct (files req) as [fs|]; [|by left].
    destruct (fileField fs) as [file|]; [|by left].
    destruct (negb _); [by left|].
    destruct (exceeds _ _ _); [by left|].
    right. by eexists.
Qed.

(** X10. The size check at its bounds.  With [MAX_FILE_UPLOAD] unset, or
    set to something that is not a number, no size is refused: a picture
    for a bootcamp that exists is moved whatever its size.  With a limit
    that reads as [n], the picture is moved exactly when its size is at
    most [n], so a file of exactly the limit passes. *)
Theorem upload_size_bound env (Bootcamp : Model document) mvError req b fs file :
  findById Bootcamp (params_id req) = Some b →
  files req = Some fs → fileField fs = Some file →
  Str.startsWith (mimetype file) "image" = true →
  let result := bootcampPhotoUpload ToNumber ext env Bootcamp mvError req in
  (MAX_FILE_UPLOAD env ≫= ToNumber = None →
     ∃ path rest, result.1 = Mv path :: rest)
  ∧ (∀ n, MAX_FILE_UPLOAD env ≫= ToNumber = Some n →
       ((∃ path rest, result.1 = Mv path :: rest) ↔ size file ≤ n)).
Proof.
  intros Hb Hfs Hf Hi. cbv zeta. unfold bootcampPhotoUpload, exceeds.
  rewrite Hb, Hfs, Hf, Hi. simpl negb. cbv iota. split.
  - intros ->. destruct mvError; [simpl; eauto|]. destruct (updateError _ _ _); simpl; eauto.
  - intros n ->. destruct (Z.gtb_spec (size file) n).
    + split; [|lia]. by intros (path & rest & ?).
    + split; [done|]. intros _. destruct mvError; [simpl; eauto|]. destruct (updateError _ _ _); simpl; eauto.
Qed.

End UploadOutcomes.

Section UploadOutcomesExamples.
Import JS Heap Mongoose Bootcamps.

Lemma upload_success_witness :
  bootcampPhotoUpload parseIntString (λ _, ".jpg") Samples.environment
    Samples.threeDocuments None (Cases.pictureUpload 4096)
  = ([Mv "./public/uploads/photo_5d713995b721c3bb38c1f5d0.jpg";
      FindByIdAndUpdate "5d713995b721c3bb38c1f5d0" "photo_5d713995b721c3bb38c1f5d0.jpg"],
     Json 200 "photo_5d713995b721c3bb38c1f5d0.jpg")
  ∧ bootcampPhotoUpload parseIntString (λ _, ".jpg") Samples.environment
      Cases.unreachable None (Cases.pictureUpload 4096)
    = ([Mv "./public/uploads/photo_5d713995b721c3bb38c1f5d0.jpg"],
       Unhandled (StorageError "MongoNetworkError")).
Proof.
  split.
  - apply (proj1 (upload_success parseIntString (λ _, ".jpg") Samples.environment
                    Samples.threeDocuments None (Cases.pictureUpload 4096))).
    eexists 0%nat, _, _. repeat split.
  - apply (proj1 (proj2 (proj2 (upload_success parseIntString (λ _, ".jpg")
                                  Samples.environment Cases.unreachable None
                                  (Cases.pictureUpload 4096))))).
    eexists 0%nat, _, _. repeat split.
Defined.

Lemma upload_size_bound_witness :
  (∃ path rest,
     (bootcampPhotoUpload parseIntString (λ _, ".jpg") Cases.noLimit
        Samples.threeDocuments None (Cases.pictureUpload (2 ^ 40))).1
     = Mv path :: rest)
  ∧ (∃ path rest,
       (bootcampPhotoUpload parseIntString (λ _, ".jpg") Samples.environment
          Samples.threeDocuments None (Cases.pictureUpload 1000000)).1
       = Mv path :: rest).
Proof.
  split.
  - refine (proj1 (upload_size_bound parseIntString (λ _, ".jpg") Cases.noLimit
                     Samples.threeDocuments None (Cases.pictureUpload (2 ^ 40))
                     0%nat _ _ eq_refl eq_refl eq_refl eq_refl) _).
    reflexivity.
  - refine (proj2 (proj2 (upload_size_bound parseIntString (λ _, ".jpg")
                            Samples.environment Samples.threeDocuments None
                            (Cases.pictureUpload 1000000)
                            0%nat _ _ eq_refl eq_refl eq_refl eq_refl)
                     1000000 eq_refl) _).
    simpl. lia.
Defined.

End UploadOutcomesExamples.

(** ** The filter, structurally *)

Section ShapeFacts.
Import JS JSON Heap Mongoose Bootcamps Words RegExp Shape.

Lemma rewriteWords_scan s : RegExp.replace operatorPattern prefixDollar s = rewriteWords s.
Proof. unfold RegExp.replace. apply (scan_rewriteWords (String.length s)); [done|by left]. Qed.

Lemma Dollars_rewriteWords s : Dollars s (rewriteWords s).
Proof. rewrite <- rewriteWords_scan. by apply (Dollars_scan (String.length s)). Qed.

(** The rewrite passes over a character that is not a word character,
    wherever it stands. *)
Lemma rewriteWords_app_nonword n : ∀ s q rest,
  (String.length s ≤ n)%nat → Str.isWordChar q = false →
  rewriteWords (s +:+ String q rest) = rewriteWords s +:+ String q (rewriteWords rest).
Proof.
  induction n as [|n IH]; intros s q rest Hlen Hq.
  { destruct s; [|simpl in Hlen; lia]. rewrite app_nil_l. by apply rewriteWords_nonword. }
  destruct s as [|c t]; [rewrite app_nil_l; by apply rewriteWords_nonword|].
  simpl in Hlen. destruct (Str.isWordChar c) eqn:Ec.
  - destruct (wordPrefix_spec (String c t)) as (Hs & Hw & Hr & Hl).
    assert (Hne : wordPrefix (String c t) ≠ "") by (simpl; by rewrite Ec).
    assert (Hlt : (String.length (wordRest (String c t)) ≤ n)%nat).
    { simpl. rewrite Ec. destruct (wordPrefix_spec t) as (_ & _ & _ & Ht). lia. }
    rewrite Hs, app_assoc_s.
    rewrite rewriteWords_word; [|done|done|].
    + rewrite (rewriteWords_word _ (wordRest (String c t))) by done.
      rewrite IH by done. by rewrite app_assoc_s.
    + destruct (wordRest (String c t)); [simpl; by rewrite Hq|exact Hr].
  - rewrite app_cons, !rewriteWords_nonword by done.
    rewrite IH by (done || lia). done.
Qed.

(** A string of word characters is one run. *)
Lemma rewriteWords_allWord w : allWord w = true → rewriteWords w = rewriteRun w.
Proof.
  intros Hw. destruct w as [|c w]; [done|].
  rewrite <- (app_nil_r (String c w)) at 1.
  rewrite rewriteWords_word by done. apply app_nil_r.
Qed.

(** *** The rewrite loses nothing *)

Lemma allWord_head w r : w ≠ "" → allWord w = true → isWord (head (w +:+ r)) = true.
Proof.
  destruct w as [|c w]; [done|]. simpl. intros _ H.
  by apply andb_true_iff in H as [-> _].
Qed.

Lemma rewriteWords_head s : isWord (head s) = false → isWord (head (rewriteWords s)) = false.
Proof.
  destruct s as [|c t]; [done|]. simpl. intros Hc. by rewrite rewriteWords_nonword.
Qed.

Lemma word_split_unique w v r r' :
  allWord w = true → allWord v = true →
  isWord (head r) = false → isWord (head r') = false →
  w +:+ r = v +:+ r' → w = v ∧ r = r'.
Proof.
  revert v. induction w as [|c w IH]; intros v Hw Hv Hr Hr' E.
  - destruct v as [|d v]; [done|]. rewrite app_nil_l in E. subst r.
    simpl in Hr, Hv. apply andb_true_iff in Hv as [Hd _]. congruence.
  - simpl in Hw. apply andb_true_iff in Hw as [Hc Hw].
    destruct v as [|d v].
    + rewrite app_nil_l in E. subst r'. simpl in Hr'. congruence.
    + rewrite !app_cons in E. injection E as -> E.
      simpl in Hv. apply andb_true_iff in Hv as [_ Hv].
      destruct (IH v Hw Hv Hr Hr' E) as [-> ->]. done.
Qed.

(** A text cut at its first run. *)
Lemma first_run s :
  s = ""
  ∨ (∃ c t, s = String c t ∧ Str.isWordChar c = false
            ∧ rewriteWords s = String c (rewriteWords t))
  ∨ (∃ w r, s = w +:+ r ∧ w ≠ "" ∧ allWord w = true ∧ isWord (head r) = false
            ∧ (String.length r < String.length s)%nat
            ∧ rewriteWords s = rewriteRun w +:+ rewriteWords r).
Proof.
  destruct s as [|c t]; [by left|]. right.
  destruct (Str.isWordChar c) eqn:Ec.
  - right. destruct (wordPrefix_spec (String c t)) as (Hs & Hw & Hr & Hl).
    exists (wordPrefix (String c t)), (wordRest (String c t)).
    assert (Hne : wordPrefix (String c t) ≠ "") by (simpl; by rewrite Ec).
    split; [exact Hs|]. split; [exact Hne|]. split; [exact Hw|]. split; [exact Hr|].
    split.
    + simpl. rewrite Ec. destruct (wordPrefix_spec t) as (_ & _ & _ & Ht). lia.
    + rewrite Hs at 1. by apply rewriteWords_word.
  - left. exists c, t. split; [done|]. split; [done|]. by apply rewriteWords_nonword.
Qed.

Lemma rewriteRun_app_head w r :
  w ≠ "" → allWord w = true →
  isWord (head (rewriteRun w +:+ r)) = negb (isOperator w).
Proof.
  intros Hne Hw. unfold rewriteRun. destruct (isOperator w); [done|].
  by apply allWord_head.
Qed.

(** A text that begins with a character that is no word character and a
    text that begins with a word are rewritten differently. *)
Lemma rewriteWords_nonword_word c t w r :
  Str.isWordChar c = false →
  w ≠ "" → allWord w = true → isWord (head r) = false →
  rewriteWords (String c t) ≠ rewriteWords (w +:+ r).
Proof.
  intros Hc Hne Hw Hr E.
  rewrite rewriteWords_nonword, rewriteWords_word in E by done.
  pose proof (rewriteRun_app_head w (rewriteWords r) Hne Hw) as Hh.
  rewrite <- E in Hh. simpl in Hh. rewrite Hc in Hh.
  destruct (isOperator w) eqn:Eo; [|done]. clear Hh.
  unfold rewriteRun in E. rewrite Eo in E.
  change ("$" +:+ w) with (String "$" w) in E. rewrite app_cons in E.
  injection E as -> E.
  destruct (first_run t) as [->|[(d & t' & -> & Hd & Et)|(w' & r' & -> & Hne' & Hw' & Hr' & _ & Et)]].
  - destruct w; done.
  - pose proof (allWord_head w (rewriteWords r) Hne Hw) as Hh.
    rewrite <- E, Et in Hh. simpl in Hh. congruence.
  - rewrite Et in E.
    pose proof (rewriteRun_app_head w' (rewriteWords r') Hne' Hw') as Hh.
    rewrite E, (allWord_head w _ Hne Hw) in Hh.
    destruct (isOperator w') eqn:Eo'; [done|].
    unfold rewriteRun in E. rewrite Eo' in E.
    apply word_split_unique in E as [-> _]; try done; try by apply rewriteWords_head.
    congruence.
Qed.

Lemma rewriteWords_inj n : ∀ a b,
  (String.length a ≤ n)%nat → rewriteWords a = rewriteWords b → a = b.
Proof.
  induction n as [|n IH]; intros a b Hlen E.
  { destruct a; [|simpl in Hlen; lia].
    pose proof (Dollars_length _ _ (Dollars_rewriteWords b)) as Hl.
    rewrite <- E in Hl. destruct b; [done|simpl in Hl; lia]. }
  destruct (first_run a) as [->|[(c & t & -> & Hc & Ea)|(w & r & -> & Hne & Hw & Hr & Hl & Ea)]].
  - pose proof (Dollars_length _ _ (Dollars_rewriteWords b)) as Hl.
    rewrite <- E in Hl. destruct b; [done|simpl in Hl; lia].
  - destruct (first_run b)
      as [->|[(d & t' & -> & Hd & Eb)|(v & r' & -> & Hne' & Hv & Hr' & _ & Eb)]].
    + rewrite Ea in E. done.
    + rewrite Ea, Eb in E. injection E as -> E. f_equal.
      apply IH; [simpl in Hlen; lia|done].
    + by apply rewriteWords_nonword_word in E.
  - destruct (first_run b)
      as [->|[(d & t' & -> & Hd & Eb)|(v & r' & -> & Hne' & Hv & Hr' & _ & Eb)]].
    + rewrite Ea in E.
      pose proof (rewriteRun_app_head w (rewriteWords r) Hne Hw) as Hh.
      rewrite E in Hh. unfold rewriteRun in E.
      destruct (isOperator w); [done|]. destruct w; done.
    + symmetry in E. by apply rewriteWords_nonword_word in E.
    + rewrite Ea, Eb in E.
      pose proof (rewriteRun_app_head w (rewriteWords r) Hne Hw) as Hh.
      rewrite E, (rewriteRun_app_head v _ Hne' Hv) in Hh.
      assert (Eo : isOperator v = isOperator w) by (by destruct (isOperator v), (isOperator w)).
      unfold rewriteRun in E. rewrite Eo in E.
      assert (E' : w +:+ rewriteWords r = v +:+ rewriteWords r').
      { destruct (isOperator w); [|exact E].
        change ("$" +:+ ?x) with (String "$" x) in E. rewrite !app_cons in E.
        by injection E. }
      apply word_split_unique in E' as [-> E']; try done; try by apply rewriteWords_head.
      f_equal. apply IH; [|done]. rewrite length_app_s in Hlen, Hl. lia.
Qed.

(** Two texts that are rewritten alike are the same text. *)
Lemma rewriteWords_injective a b : rewriteWords a = rewriteWords b → a = b.
Proof. by apply (rewriteWords_inj (String.length a)). Qed.

(** *** Strings that are written as they are *)

Lemma escapeChar_plain c : plainChar c = true → escapeChar c = String c "".
Proof.
  unfold plainChar, escapeChar. rewrite !andb_true_iff, !negb_true_iff.
  intros [[Hn ->] ->]. apply Z.ltb_ge in Hn.
  repeat match goal with
         | |- context [Str.code c =? ?k] =>
             destruct (Z.eqb_spec (Str.code c) k); [lia|]
         end.
  destruct (Z.ltb_spec (Str.code c) 32); [lia|done].
Qed.

Lemma escape_plain s : plain s = true → escape s = s.
Proof.
  induction s as [|c s IH]; [done|]. simpl. intros [Hc Hs]%andb_true_iff.
  by rewrite (escapeChar_plain _ Hc), IH.
Qed.

Lemma Dollars_plain t t' : Dollars t t' → plain t = true → plain t' = true.
Proof.
  induction 1 as [|c t t' _ IH|c t t' _ _ IH]; [done| |]; simpl;
    intros [Hc Ht]%andb_true_iff; by rewrite Hc, IH.
Qed.

Lemma rewriteWords_plain s : plain s = true → plain (rewriteWords s) = true.
Proof. apply Dollars_plain, Dollars_rewriteWords. Qed.

Lemma quote_plain s : plain s = true → quote s = String Str.dquote (s +:+ String Str.dquote "").
Proof. intros H. unfold quote. by rewrite escape_plain. Qed.

(** The rewrite of a string literal is the literal of the rewritten
    string. *)
Lemma rewriteWords_quote s rest :
  plain s = true →
  rewriteWords (quote s +:+ rest) = quote (rewriteWords s) +:+ rewriteWords rest.
Proof.
  intros H. rewrite !quote_plain by (done || by apply rewriteWords_plain).
  rewrite !app_cons, !app_assoc_s, !app_cons, !app_nil_l.
  rewrite rewriteWords_nonword by done.
  by rewrite (rewriteWords_app_nonword (String.length s)).
Qed.

(** *** The rewrite of a serialized value *)

Abbreviation rewritten := (mapStrings rewriteWords).

Lemma rewriteWords_items items close rest :
  Str.isWordChar close = false →
  Forall (λ v, plainStrings v = true →
               ∀ rest, rewriteWords (stringify v +:+ rest)
                       = stringify (rewritten v) +:+ rewriteWords rest) items →
  forallb plainStrings items = true →
  rewriteWords (Str.join "," (map stringify items) +:+ String close rest)
  = Str.join "," (map stringify (map rewritten items)) +:+ String close (rewriteWords rest).
Proof.
  intros Hclose Hall. induction Hall as [|v items Hv Hall IH].
  - intros _. simpl. rewrite !app_nil_l. by apply rewriteWords_nonword.
  - simpl forallb. intros [Hp Hps]%andb_true_iff. specialize (IH Hps).
    destruct items as [|v2 items].
    + simpl. rewrite (Hv Hp). by rewrite rewriteWords_nonword.
    + rewrite !map_cons, !join_cons_cons, !app_assoc_s.
      rewrite (Hv Hp). f_equal.
      change ("," +:+ ?x) with (String "," x). rewrite rewriteWords_nonword by done.
      f_equal. rewrite !map_cons in IH. exact IH.
Qed.

Lemma member_rewritten k v :
  member (rewriteWords k, rewritten v)
  = quote (rewriteWords k) +:+ ":" +:+ stringify (rewritten v).
Proof. reflexivity. Qed.

Lemma rewriteWords_members props rest :
  Forall (λ p, plainStrings (snd p) = true →
               ∀ rest, rewriteWords (stringify (snd p) +:+ rest)
                       = stringify (rewritten (snd p)) +:+ rewriteWords rest) props →
  forallb (λ p, plain (fst p) && plainStrings (snd p)) props = true →
  rewriteWords (Str.join "," (map member props) +:+ String "}" rest)
  = Str.join "," (map member (map (λ p, (rewriteWords (fst p), rewritten (snd p))) props))
    +:+ String "}" (rewriteWords rest).
Proof.
  intros Hall. induction Hall as [|[k v] props Hv Hall IH].
  - intros _. simpl. rewrite !app_nil_l. by apply rewriteWords_nonword.
  - simpl forallb. intros [[Hk Hp]%andb_true_iff Hps]%andb_true_iff. specialize (IH Hps).
    simpl snd in Hv. specialize (Hv Hp).
    assert (Hm : ∀ tail, rewriteWords (member (k, v) +:+ tail)
                         = member (rewriteWords k, rewritten v) +:+ rewriteWords tail).
    { intros tail. rewrite member_rewritten. unfold member. simpl fst. simpl snd.
      rewrite !app_assoc_s. rewrite (rewriteWords_quote _ _ Hk). f_equal.
      change (":" +:+ ?x) with (String ":" x). rewrite rewriteWords_nonword by done.
      rewrite ?app_cons, ?app_nil_l. f_equal. apply Hv. }
    destruct props as [|p2 props].
    + change (Str.join "," (map member [(k, v)])) with (member (k, v)).
      change (Str.join "," (map member (map _ [(k, v)])))
        with (member (rewriteWords k, rewritten v)).
      rewrite Hm. by rewrite rewriteWords_nonword.
    + rewrite !map_cons, !join_cons_cons, !app_assoc_s.
      simpl fst. simpl snd. rewrite Hm. f_equal.
      change ("," +:+ ?x) with (String "," x). rewrite rewriteWords_nonword by done.
      f_equal. rewrite !map_cons in IH. exact IH.
Qed.

(** On a value whose strings are written as they are, rewriting the
    serialization is serializing the value with its strings rewritten. *)
Lemma rewriteWords_stringify v :
  plainStrings v = true →
  ∀ rest, rewriteWords (stringify v +:+ rest)
          = stringify (rewritten v) +:+ rewriteWords rest.
Proof.
  induction v as [s|items IH|props IH] using value_induction; intros Hp rest.
  - apply (rewriteWords_quote s rest Hp).
  - change (rewritten (VArr items)) with (VArr (map rewritten items)).
    rewrite !stringify_VArr, !app_assoc_s.
    change ("[" +:+ ?x) with (String "[" x). rewrite !app_cons.
    rewrite rewriteWords_nonword by done. f_equal.
    change ("]" +:+ ?x) with (String "]" x).
    by apply rewriteWords_items.
  - change (rewritten (VObj props))
      with (VObj (map (λ p, (rewriteWords (fst p), rewritten (snd p))) props)).
    rewrite !stringify_VObj, !app_assoc_s.
    change ("{" +:+ ?x) with (String "{" x). rewrite !app_cons.
    rewrite rewriteWords_nonword by done. f_equal.
    change ("}" +:+ ?x) with (String "}" x).
    by apply rewriteWords_members.
Qed.

(** *** Reading back what was written *)

Lemma define_new k v (acc : object) :
  hasKey k acc = false → isIndex k = false → define k v acc = acc ++ [(k, v)].
Proof.
  unfold define, isIndex. intros -> Hi. by destruct (arrayIndex k).
Qed.

Lemma hasKey_snoc k k' v (acc : object) :
  hasKey k (acc ++ [(k', v)]) = hasKey k acc || String.eqb k' k.
Proof. unfold hasKey. rewrite existsb_app. simpl. by rewrite orb_false_r. Qed.

Lemma parseItems_exact items :
  items ≠ [] → Forall readsBack items →
  ∀ r fuel, (list_sum (map (λ v, S (weight v)) items) ≤ fuel)%nat →
    parseItems fuel (Str.join "," (map stringify items) +:+ String "]" r)
    = Some (items, r).
Proof.
  intros Hne Hall. induction Hall as [|v items Hv Hall IH]; [done|].
  intros r fuel Hfuel. rewrite map_cons in Hfuel. simpl list_sum in Hfuel.
  destruct fuel as [|fuel]; [lia|]. rewrite parseItems_S.
  destruct items as [|v2 items].
  - simpl. rewrite (Hv (String "]" r) fuel) by lia. reflexivity.
  - rewrite map_cons, (map_cons _ v2), join_cons_cons, !app_assoc_s.
    rewrite <- (map_cons stringify v2).
    pose proof (IH ltac:(done) r fuel ltac:(lia)) as E.
    remember (Str.join "," (map stringify (v2 :: items)) +:+ String "]" r) as tail.
    rewrite (Hv ("," +:+ tail) fuel) by lia.
    change ("," +:+ tail) with (String "," tail). simpl. rewrite E. reflexivity.
Qed.

Lemma parseMembers_exact props :
  props ≠ [] → Forall (λ p, readsBack (snd p)) props →
  ∀ acc r fuel,
    distinct (map fst props) = true →
    Forall (λ p, hasKey (fst p) acc = false ∧ isIndex (fst p) = false) props →
    (list_sum (map (λ p, S (weight (snd p))) props) ≤ fuel)%nat →
    parseMembers fuel (Str.join "," (map member props) +:+ String "}" r) acc
    = Some (acc ++ props, r).
Proof.
  intros Hne Hall. induction Hall as [|[k v] props Hv Hall IH]; [done|].
  intros acc r fuel Hd Hacc Hfuel. rewrite map_cons in Hfuel. simpl list_sum in Hfuel.
  simpl snd in Hfuel, Hv.
  apply Forall_cons in Hacc as [[Hk Hi] Hacc]. simpl fst in Hk, Hi.
  rewrite map_cons in Hd. simpl in Hd. apply andb_true_iff in Hd as [Hkd Hd].
  apply negb_true_iff in Hkd.
  destruct fuel as [|fuel]; [lia|].
  destruct props as [|p2 props].
  - pose proof (Hv (String "}" r) fuel ltac:(lia)) as E.
    change (Str.join "," (map member [(k, v)])) with (member (k, v)).
    rewrite (parseMembers_member _ _ _ _ _ _ E). simpl.
    by rewrite define_new.
  - rewrite map_cons, (map_cons _ p2), join_cons_cons, !app_assoc_s.
    rewrite <- (map_cons member p2).
    remember (Str.join "," (map member (p2 :: props)) +:+ String "}" r) as tail.
    pose proof (Hv ("," +:+ tail) fuel ltac:(lia)) as E.
    rewrite (parseMembers_member _ _ _ _ _ _ E).
    change ("," +:+ tail) with (String "," tail). simpl. subst tail.
    rewrite define_new by done.
    rewrite IH; [by rewrite <- app_assoc|done|done| |lia].
    rewrite Forall_forall in Hacc |- *. intros p Hp.
    destruct (Hacc p Hp) as [Hpa Hpi]. split; [|exact Hpi].
    rewrite hasKey_snoc, Hpa. simpl.
    destruct (String.eqb k (fst p)) eqn:Ek; [|done].
    exfalso. apply not_true_iff_false in Hkd. apply Hkd.
    rewrite existsb_exists. exists (fst p). split; [|exact Ek].
    apply in_map. by apply list_elem_of_In.
Qed.

Ltac flatten_text :=
  repeat (rewrite app_assoc_s || rewrite app_cons || rewrite app_nil_l).

(** [JSON.parse] after [JSON.stringify] is the identity on the values
    whose objects enumerate their keys in the order of definition. *)
Lemma stringify_readsBack v : canonical v = true → readsBack v.
Proof.
  induction v as [s|items IH|props IH] using value_induction;
    intros Hc r fuel Hfuel; simpl in Hfuel;
    (destruct fuel as [|fuel]; [lia|]).
  - change (stringify (VStr s)) with (quote s). unfold quote. flatten_text.
    rewrite parseValue_string, parseChars_escape. reflexivity.
  - destruct items as [|v items]; [reflexivity|].
    rewrite stringify_VArr. flatten_text. rewrite parseValue_array.
    assert (expect "]" (Str.join "," (map stringify (v :: items)) +:+ String "]" r) = None)
      as ->.
    { rewrite map_cons. destruct (map stringify items).
      - apply stringify_head.
      - rewrite join_cons_cons, !app_assoc_s. apply stringify_head. }
    rewrite (parseItems_exact (v :: items)); [reflexivity|done| |lia].
    change (canonical (VArr (v :: items))) with (forallb canonical (v :: items)) in Hc.
    rewrite forallb_forall in Hc. rewrite Forall_forall in IH |- *.
    intros x Hx. apply IH; [done|]. apply Hc. by apply list_elem_of_In.
  - destruct props as [|p props]; [reflexivity|].
    rewrite stringify_VObj. flatten_text. rewrite parseValue_object.
    assert (expect "}" (Str.join "," (map member (p :: props)) +:+ String "}" r) = None)
      as ->.
    { rewrite map_cons. destruct (map member props).
      - apply member_head.
      - rewrite join_cons_cons, !app_assoc_s. apply member_head. }
    change (canonical (VObj (p :: props)))
      with (distinct (map fst (p :: props))
            && forallb (λ p, negb (isIndex (fst p)) && canonical (snd p)) (p :: props)) in Hc.
    apply andb_true_iff in Hc as [Hd Hc]. rewrite forallb_forall in Hc.
    rewrite (parseMembers_exact (p :: props)); [reflexivity|done| |done| |lia].
    + rewrite Forall_forall in IH |- *. intros x Hx. apply IH; [done|].
      specialize (Hc x (proj1 (list_elem_of_In _ _) Hx)).
      by apply andb_true_iff in Hc as [_ ?].
    + rewrite Forall_forall. intros x Hx. split; [done|].
      specialize (Hc x (proj1 (list_elem_of_In _ _) Hx)).
      apply andb_true_iff in Hc as [Hi _]. by apply negb_true_iff in Hi.
Qed.

Lemma parse_stringify v : canonical v = true → JSON.parse (stringify v) = Some v.
Proof.
  intros Hc. unfold JSON.parse.
  pose proof (weight_length v) as Hw.
  pose proof (stringify_readsBack v Hc "" (S (2 * String.length (stringify v)))
                ltac:(lia)) as E.
  rewrite app_nil_r in E. by rewrite E.
Qed.

(** *** The rewritten value is read back as it is *)

Lemma Dollars_digits k k' :
  Dollars k k' → forallb Str.isDigit (list_ascii_of_string k') = true → k' = k.
Proof.
  induction 1 as [|c t t' _ IH|c t t' _ _ IH]; [done| |]; simpl.
  - intros [_ Ht]%andb_true_iff. by rewrite IH.
  - done.
Qed.

Lemma arrayIndex_digits k n :
  arrayIndex k = Some n → forallb Str.isDigit (list_ascii_of_string k) = true.
Proof.
  unfold arrayIndex. destruct k as [|c t]; [done|].
  destruct (forallb Str.isDigit (list_ascii_of_string (String c t))); [done|].
  by rewrite andb_false_l.
Qed.

Lemma isIndex_rewriteWords k : isIndex k = false → isIndex (rewriteWords k) = false.
Proof.
  unfold isIndex. intros Hk.
  destruct (arrayIndex (rewriteWords k)) as [n|] eqn:E; [|done].
  rewrite (Dollars_digits _ _ (Dollars_rewriteWords k) (arrayIndex_digits _ _ E)) in E.
  by rewrite E in Hk.
Qed.

Lemma distinct_map (f : string → string) l :
  (∀ a b, f a = f b → a = b) → distinct l = true → distinct (map f l) = true.
Proof.
  intros Hf. induction l as [|k l IH]; [done|]. simpl.
  intros [Hk Hl]%andb_true_iff. rewrite (IH Hl), andb_true_r.
  apply negb_true_iff in Hk. apply negb_true_iff, not_true_iff_false.
  intros H. apply not_true_iff_false in Hk. apply Hk.
  rewrite existsb_exists in H |- *. destruct H as (y & Hy & Ey).
  apply in_map_iff in Hy as (x & <- & Hx). apply String.eqb_eq in Ey.
  apply Hf in Ey as ->. exists x. split; [done|apply String.eqb_refl].
Qed.

Lemma canonical_rewritten v : canonical v = true → canonical (rewritten v) = true.
Proof.
  induction v as [s|items IH|props IH] using value_induction; [done| |].
  - change (canonical (VArr items)) with (forallb canonical items).
    change (canonical (rewritten (VArr items)))
      with (forallb canonical (map rewritten items)).
    rewrite !forallb_forall. intros Hc y Hy.
    apply in_map_iff in Hy as (x & <- & Hx).
    rewrite Forall_forall in IH. apply IH; [by apply list_elem_of_In|by apply Hc].
  - change (canonical (VObj props))
      with (distinct (map fst props)
            && forallb (λ p, negb (isIndex (fst p)) && canonical (snd p)) props).
    change (canonical (rewritten (VObj props)))
      with (distinct (map fst (map (λ p, (rewriteWords (fst p), rewritten (snd p))) props))
            && forallb (λ p, negb (isIndex (fst p)) && canonical (snd p))
                 (map (λ p, (rewriteWords (fst p), rewritten (snd p))) props)).
    intros [Hd Hc]%andb_true_iff. apply andb_true_iff. split.
    + rewrite map_map. simpl. rewrite <- (map_map fst rewriteWords).
      apply distinct_map; [apply rewriteWords_injective|exact Hd].
    + rewrite forallb_forall in Hc |- *. intros y Hy.
      apply in_map_iff in Hy as (x & <- & Hx). simpl.
      specialize (Hc x Hx). apply andb_true_iff in Hc as [Hi Hcx].
      apply negb_true_iff in Hi. rewrite (isIndex_rewriteWords _ Hi). simpl.
      rewrite Forall_forall in IH. apply IH; [by apply list_elem_of_In|done].
Qed.

(** The run of [buildFilter] on a query whose stripped part is tidy. *)
Lemma buildFilter_tidy req (σ : store) props :
  σ !! query req = Some props →
  tidy (VObj (strip props)) = true →
  buildFilter req σ
  = (Return (rewritten (VObj (strip props))), <[fresh (dom σ) := strip props]> σ).
Proof.
  intros H [Hc Hp]%andb_true_iff. rewrite (buildFilter_run _ _ _ H).
  unfold filterText. rewrite rewriteWords_scan.
  rewrite <- (app_nil_r (stringify (VObj (strip props)))).
  rewrite (rewriteWords_stringify _ Hp). change (rewriteWords "") with "".
  rewrite app_nil_r. by rewrite (parse_stringify _ (canonical_rewritten _ Hc)).
Qed.

Lemma rewritten_inj v : ∀ v', rewritten v = rewritten v' → v = v'.
Proof.
  induction v as [s|items IH|props IH] using value_induction; intros [s'|items'|props'];
    try done.
  - intros [= E]. by rewrite (rewriteWords_injective _ _ E).
  - change (rewritten (VArr items)) with (VArr (map rewritten items)).
    change (rewritten (VArr items')) with (VArr (map rewritten items')).
    intros [= E]. f_equal. revert items' E.
    induction IH as [|x l Hx _ IHl]; intros [|y l'] E; try done.
    injection E as E1 E2. by rewrite (Hx _ E1), (IHl _ E2).
  - change (rewritten (VObj props))
      with (VObj (map (λ p, (rewriteWords (fst p), rewritten (snd p))) props)).
    change (rewritten (VObj props'))
      with (VObj (map (λ p, (rewriteWords (fst p), rewritten (snd p))) props')).
    intros [= E]. f_equal. revert props' E.
    induction IH as [|[k x] l Hx _ IHl]; intros [|[k' y] l'] E; try done.
    injection E as E0 E1 E2. simpl in Hx.
    by rewrite (rewriteWords_injective _ _ E0), (Hx _ E1), (IHl _ E2).
Qed.

Lemma concat_runs s : Str.concat (runs s) = s.
Proof.
  induction s as [|c t IH]; [done|]. simpl.
  destruct (runs t) as [|r rs].
  - simpl in IH. by subst t.
  - change (Str.concat (r :: rs)) with (r +:+ Str.concat rs) in IH.
    destruct (sameClass c r).
    + change (Str.concat (String c r :: rs)) with (String c (r +:+ Str.concat rs)).
      by rewrite IH.
    + change (Str.concat (String c "" :: r :: rs)) with (String c (r +:+ Str.concat rs)).
      by rewrite IH.
Qed.

Lemma rewriteWords_quiet s :
  forallb (λ r, negb (isOperator r)) (runs s) = true → rewriteWords s = s.
Proof.
  unfold rewriteWords. intros H.
  assert (E : map rewriteRun (runs s) = runs s).
  { rewrite forallb_forall in H. rewrite <- (map_id (runs s)) at 2.
    apply map_ext_in. intros r Hr. specialize (H r Hr). unfold rewriteRun.
    apply negb_true_iff in H. by rewrite H. }
  rewrite E. apply concat_runs.
Qed.

Lemma mapStrings_ext f g v : (∀ s, f s = g s) → mapStrings f v = mapStrings g v.
Proof.
  intros Hfg. induction v as [s|items IH|props IH] using value_induction.
  - simpl. by rewrite Hfg.
  - change (VArr (map (mapStrings f) items) = VArr (map (mapStrings g) items)).
    f_equal. induction IH as [|x l Hx _ IHl]; [done|]. simpl. by rewrite Hx, IHl.
  - change (VObj (map (λ p, (f (fst p), mapStrings f (snd p))) props)
            = VObj (map (λ p, (g (fst p), mapStrings g (snd p))) props)).
    f_equal. induction IH as [|x l Hx _ IHl]; [done|]. simpl. by rewrite Hx, IHl, Hfg.
Qed.

(** X12. The filter of a tidy query, structurally.  When the keys and
    strings of the query that is left after the deletions hold no quote,
    backslash or control character, and its objects have pairwise
    distinct keys none of which is an array index, the filter is that
    query with the replacement of line 26 applied to every key and to
    every string value by itself, at any depth, arrays included; all else
    (nesting, order, number of properties) is as in the query.  On a key
    or value made of word characters only the replacement puts the
    dollar sign exactly when the whole of it is one of the operator
    tokens. *)
Theorem filter_structure req (σ : store) props :
  σ !! query req = Some props →
  tidy (VObj (strip props)) = true →
  (buildFilter req σ).1
  = Return (mapStrings (RegExp.replace operatorPattern prefixDollar) (VObj (strip props)))
  ∧ (∀ w, allWord w = true →
       RegExp.replace operatorPattern prefixDollar w
       = if isOperator w then "$" +:+ w else w).
Proof.
  intros H Ht. split.
  - rewrite (buildFilter_tidy _ _ _ H Ht). cbn [fst]. f_equal.
    apply mapStrings_ext. intros s. symmetry. apply rewriteWords_scan.
  - intros w Hw. by rewrite rewriteWords_scan, (rewriteWords_allWord _ Hw).
Qed.

Lemma filter_structure_witness :
  (buildFilter Samples.request1 (Samples.storeOf Cases.operatorsEverywhere)).1
  = Return (VObj [("averageCost", VObj [("$lte", VStr "10000")]);
                  ("careers", VObj [("$in", VArr [VStr "Business"; VStr "$in"])]);
                  ("$$gt", VStr "$gte $lt-x")]).
Proof.
  refine (proj1 (filter_structure Samples.request1
                   (Samples.storeOf Cases.operatorsEverywhere)
                   Cases.operatorsEverywhere eq_refl _)).
  reflexivity.
Defined.

(** X13. On tidy queries the filter tells the queries apart: two
    requests get the same filter exactly when their queries are the same
    once the reserved keys are deleted.  The replacement of line 26
    never maps two different texts to one. *)
Theorem filter_injective req1 req2 (σ1 σ2 : store) props1 props2 :
  σ1 !! query req1 = Some props1 →
  σ2 !! query req2 = Some props2 →
  tidy (VObj (strip props1)) = true →
  tidy (VObj (strip props2)) = true →
  ((buildFilter req1 σ1).1 = (buildFilter req2 σ2).1 ↔ strip props1 = strip props2)
  ∧ (∀ a b, RegExp.replace operatorPattern prefixDollar a
            = RegExp.replace operatorPattern prefixDollar b → a = b).
Proof.
  intros H1 H2 T1 T2.
  split; [|intros a b; rewrite !rewriteWords_scan; apply rewriteWords_injective].
  rewrite (buildFilter_tidy _ _ _ H1 T1), (buildFilter_tidy _ _ _ H2 T2).
  cbn [fst]. split.
  - intros E.
    apply (f_equal (λ o, match o with Return v => v | Throw _ => VObj [] end)) in E.
    cbv beta iota in E. apply rewritten_inj in E. by injection E.
  - by intros ->.
Qed.

Lemma filter_injective_witness :
  (buildFilter Samples.request1 (Samples.storeOf [("name", VStr "in")])).1
  ≠ (buildFilter Samples.request1 (Samples.storeOf [("name", VStr "$in")])).1.
Proof.
  intros E.
  apply (proj1 (filter_injective Samples.request1 Samples.request1
                  (Samples.storeOf [("name", VStr "in")])
                  (Samples.storeOf [("name", VStr "$in")])
                  [("name", VStr "in")] [("name", VStr "$in")]
                  eq_refl eq_refl eq_refl eq_refl)) in E.
  discriminate E.
Defined.

(** X14. A query that mentions no operator reaches the storage layer as
    it is: when no run of the serialized query is one of the operator
    tokens, and the objects of the query have pairwise distinct keys none
    of which is an array index, serializing, rewriting and parsing make a
    deep copy, and the filter is the query without its reserved keys,
    whatever characters its strings hold. *)
Theorem filter_copies req (σ : store) props :
  σ !! query req = Some props →
  canonical (VObj (strip props)) = true →
  forallb (λ r, negb (isOperator r)) (runs (JSON.stringify (VObj (strip props)))) = true →
  (buildFilter req σ).1 = Return (VObj (strip props)).
Proof.
  intros H Hc Hq. rewrite (buildFilter_run _ _ _ H). simpl.
  unfold filterText. rewrite rewriteWords_scan, (rewriteWords_quiet _ Hq).
  by rewrite (parse_stringify _ Hc).
Qed.

Lemma filter_copies_witness :
  (buildFilter Samples.request1 (Samples.storeOf Cases.noOperator)).1
  = Return (VObj [("name", VStr ("Dev" +:+ String "009"%char "Works"));
                  ("housing", VStr "true");
                  ("location", VObj [("city", VStr "Boston")])]).
Proof.
  refine (filter_copies Samples.request1 (Samples.storeOf Cases.noOperator)
            Cases.noOperator eq_refl _ _); reflexivity.
Defined.

End ShapeFacts.

(** ** The response, end to end *)

Section ResponseEndToEnd.
Import JS Heap Mongoose Bootcamps Params.

(** X15. The success response, exactly, for a window within the safe
    integers.  [getBootcamps] answers [r] if
    and only if [select] and [sort] are each a string or missing, [page]
    and [limit] convert to strings, the storage layer answers the count
    and yields documents for the one query the request determines, and
    [r] is the response of status 200 with [success: true], the length of
    the exported handler as [count], the pagination of the window and
    those documents as [data]. *)
Theorem getBootcamps_response {document} this (Bootcamp : Model document)
    req (σ : store) props r :
  σ !! query req = Some props →
  exactWindow (buildPagination (get "page" props) (get "limit" props)
                 (countDocuments Bootcamp None)) →
  (getBootcamps this Bootcamp req σ).1 = Return r
  ↔ stringOrMissing (get "select" props)
    ∧ stringOrMissing (get "sort" props)
    ∧ convertibleParam (get "page" props) = true
    ∧ convertibleParam (get "limit" props) = true
    ∧ countError Bootcamp = None
    ∧ ∃ filter docs,
        let w := buildPagination (get "page" props) (get "limit" props)
                   (countDocuments Bootcamp None) in
        JSON.parse (filterText props) = Some filter
        ∧ run Bootcamp {| conditions := filter;
                          populated := ["courses"];
                          selected := projectionOf props;
                          sorted := Some (sortOf props);
                          skipped := Some (startIndex w);
                          limited := Some (w_limit w) |} = Return docs
        ∧ r = {| status := 200; success := true;
                 count := getBootcamps_length this;
                 pagination := w_pagination w; data := docs |}.
Proof.
  intros H _. destruct (buildQuery_cases Bootcamp _ _ _ H) as (filter & EP & Hcases).
  destruct (buildQuery Bootcamp req σ) as [o σ1] eqn:EB. cbn [fst] in Hcases.
  unfold getBootcamps. split.
  - destruct Hcases
      as [[Hsel ->]|[Hsel [[Hsort ->]|[Hsort [[Cp ->]|[Cp [[Cl ->]|[Cl [(e' & Hc & ->)|[Hc ->]]]]]]]]]];
      try (rewrite (bind_throw _ _ _ _ _ EB); discriminate).
    rewrite (bind_return _ _ _ _ _ EB). cbv zeta beta iota.
    match goal with
    | |- context [lift (run Bootcamp ?q)] =>
        unfold mbind, M_bind, bind, lift; destruct (run Bootcamp q) as [docs|e'] eqn:Er
    end; [|done].
    intros [= <-]. split; [done|]. split; [done|]. split; [done|]. split; [done|].
    split; [done|]. exists filter, docs. cbv zeta. by repeat split.
  - intros (Hsel & Hsort & Cp & Cl & Hc & filter' & docs & EP' & R & ->).
    rewrite EP in EP'. injection EP' as <-.
    destruct Hcases
      as [[? _]|[_ [[? _]|[_ [[? _]|[_ [[? _]|[_ [(e' & ? & _)|[_ ->]]]]]]]]]];
      try congruence.
    rewrite (bind_return _ _ _ _ _ EB). cbv zeta beta iota.
    erewrite bind_return; [|unfold lift; by rewrite R]. done.
Qed.

Lemma getBootcamps_response_witness :
  (getBootcamps {| getBootcamps_length := 3 |} Samples.threeDocuments Samples.request1
     (Samples.storeOf Samples.fullQuery)).1
  = Return {| status := 200; success := true; count := 3;
              pagination := {| next := None; prev := Some {| page := 1; limit := 10 |} |};
              data := [0%nat] |}.
Proof.
  apply (proj2 (getBootcamps_response {| getBootcamps_length := 3 |}
                  Samples.threeDocuments Samples.request1
                  (Samples.storeOf Samples.fullQuery) Samples.fullQuery _ eq_refl
                  ltac:(unfold exactWindow, safeInteger; repeat split; vm_compute;
                 intros Hgt; discriminate Hgt))).
  split; [right; by eexists|]. split; [right; by eexists|].
  split; [reflexivity|]. split; [reflexivity|]. split; [reflexivity|].
  eexists _, _. cbv zeta. split; [reflexivity|]. split; reflexivity.
Defined.

End ResponseEndToEnd.
